(** * Nextellar scaffold pipeline (src/lib/scaffold.ts)

    A shallow embedding of the [scaffold] function of the nextellar
    command-line tool, together with the parts of its runtime it
    relies on: POSIX path arithmetic ([path.join], [path.resolve],
    [path.basename]), the directory tree manipulated through
    [fs-extra], [String.prototype.replaceAll] / [includes] and
    [JSON.stringify].

    Conventions of the model.
    - A JavaScript string is a [string]: the bytes of its UTF-8
      encoding.  A file holds bytes; reading it as [utf8] decodes them
      ([UTF8.decode]: every byte sequence that is not well-formed
      becomes U+FFFD), and writing a string as [utf8] stores its
      bytes.
    - A path is the list of its normalised segments below the root
      directory; trailing separators are not represented.
    - The file system is a tree of regular files and directories;
      symbolic links, permissions and timestamps are not represented.
    - An [async] function is a computation in a state-and-exception
      monad over the [World]; [await] is sequencing. *)

From Stdlib Require Import List String Ascii Bool Arith ZArith Lia.
Import ListNotations.
Local Open Scope list_scope.
Local Open Scope string_scope.

(* ------------------------------------------------------------------ *)
(** ** JavaScript strings *)

Module JSString.

(** The double quote, written by its code. *)
Definition dquote : ascii := "034"%char.
Definition backslash : ascii := "092"%char.
Definition newline : ascii := "010"%char.

Definition quoted (s : string) : string :=
  String dquote (s ++ String dquote EmptyString).

Definition nl : string := String newline EmptyString.

(** [s.startsWith(sub)] *)
Definition startsWith (s sub : string) : bool := String.prefix sub s.

(** [s.includes(sub)] *)
Fixpoint includes (s sub : string) : bool :=
  startsWith s sub ||
  match s with
  | EmptyString => false
  | String _ rest => includes rest sub
  end.

(** [s.substring(n)] *)
Fixpoint drop (n : nat) (s : string) : string :=
  match n, s with
  | O, _ => s
  | S _, EmptyString => EmptyString
  | S k, String _ rest => drop k rest
  end.

(** Truthiness of a string: only the empty string is falsy. *)
Definition truthy (s : string) : bool :=
  match s with EmptyString => false | String _ _ => true end.

(** [x || d] for an optional string property [x]. *)
Definition orDefault (x : option string) (d : string) : string :=
  match x with
  | Some s => if truthy s then s else d
  | None => d
  end.

(** [GetSubstitution] of ECMA-262 for a string pattern (no capture
    groups): in the replacement text [$$] stands for a dollar sign,
    [$&] for the matched text, [$`] for the text before the match and
    [$'] for the text after it; any other [$] is literal. *)
Fixpoint GetSubstitution (matched before after : string)
         (replacement : string) : string :=
  match replacement with
  | EmptyString => EmptyString
  | String c rest =>
      if (c =? "$")%char then
        match rest with
        | String d rest' =>
            if (d =? "$")%char then
              String "$" (GetSubstitution matched before after rest')
            else if (d =? "&")%char then
              matched ++ GetSubstitution matched before after rest'
            else if (d =? "`")%char then
              before ++ GetSubstitution matched before after rest'
            else if (d =? "'")%char then
              after ++ GetSubstitution matched before after rest'
            else String c (GetSubstitution matched before after rest)
        | EmptyString => String c EmptyString
        end
      else String c (GetSubstitution matched before after rest)
  end.

(** The scan of [replaceAll]: [before] is the text already passed,
    [skip] the number of characters of the current match still to be
    passed.  Matches are found left to right and do not overlap. *)
Fixpoint replaceAllFrom (searchValue replaceValue : string)
         (before : string) (skip : nat) (s : string) : string :=
  match s with
  | EmptyString =>
      match skip, searchValue with
      | O, EmptyString =>
          GetSubstitution searchValue before EmptyString replaceValue
      | _, _ => EmptyString
      end
  | String c rest =>
      let before' := before ++ String c EmptyString in
      match skip with
      | S k => replaceAllFrom searchValue replaceValue before' k rest
      | O =>
          if startsWith s searchValue then
            let n := String.length searchValue in
            GetSubstitution searchValue before (drop n s) replaceValue
            ++ match n with
               | O => String c (replaceAllFrom searchValue replaceValue
                                               before' 0 rest)
               | S k => replaceAllFrom searchValue replaceValue
                                       before' k rest
               end
          else
            String c (replaceAllFrom searchValue replaceValue
                                     before' 0 rest)
      end
  end.

(** [s.replaceAll(searchValue, replaceValue)] with two strings. *)
Definition replaceAll (s searchValue replaceValue : string) : string :=
  replaceAllFrom searchValue replaceValue EmptyString 0 s.

End JSString.

(* ------------------------------------------------------------------ *)
(** ** The UTF-8 decoder behind [readFile(p, "utf8")] *)

Module UTF8.

(** U+FFFD, the replacement character, in UTF-8. *)
Definition replacement : string :=
  String (ascii_of_nat 239)
         (String (ascii_of_nat 191) (String (ascii_of_nat 189) EmptyString)).

(** What a byte does when no sequence is open: it stands for itself
    (ASCII), opens a sequence of [needed] more bytes whose next byte
    lies between [lower] and [upper], or is not a lead byte and is
    replaced. *)
Inductive Lead : Type :=
| Emit (out : string)
| Begin (needed lower upper : nat).

Definition lead (b : ascii) : Lead :=
  let n := nat_of_ascii b in
  if (n <=? 127)%nat then Emit (String b EmptyString)
  else if ((194 <=? n) && (n <=? 223))%nat then Begin 1 128 191
  else if (n =? 224)%nat then Begin 2 160 191
  else if (n =? 237)%nat then Begin 2 128 159
  else if ((225 <=? n) && (n <=? 239))%nat then Begin 2 128 191
  else if (n =? 240)%nat then Begin 3 144 191
  else if (n =? 244)%nat then Begin 3 128 143
  else if ((241 <=? n) && (n <=? 243))%nat then Begin 3 128 191
  else Emit replacement.

(** The decoder: [pending] holds the bytes of the open sequence,
    [needed] the number of bytes it still lacks.  A byte that cannot
    continue the open sequence closes it with a replacement character
    and is then taken as the first byte of what follows; input that
    ends inside a sequence ends with a replacement character.  The
    result is the decoded text, in UTF-8. *)
Fixpoint decodeFrom (pending : string) (needed lower upper : nat)
         (s : string) : string :=
  match s with
  | EmptyString =>
      match needed with
      | O => EmptyString
      | S _ => replacement
      end
  | String b rest =>
      let fresh :=
        match lead b with
        | Emit out => out ++ decodeFrom EmptyString 0 128 191 rest
        | Begin k lo hi => decodeFrom (String b EmptyString) k lo hi rest
        end in
      match needed with
      | O => fresh
      | S k =>
          let n := nat_of_ascii b in
          if ((lower <=? n) && (n <=? upper))%nat then
            match k with
            | O => pending ++ String b EmptyString
                   ++ decodeFrom EmptyString 0 128 191 rest
            | S _ => decodeFrom (pending ++ String b EmptyString)
                                k 128 191 rest
            end
          else replacement ++ fresh
      end
  end.

(** [buffer.toString("utf8")] *)
Definition decode (bytes : string) : string :=
  decodeFrom EmptyString 0 128 191 bytes.

(** Well-formed UTF-8: the bytes that decoding gives back as they
    are. *)
Definition valid (bytes : string) : Prop := decode bytes = bytes.

End UTF8.

(* ------------------------------------------------------------------ *)
(** ** POSIX paths ([path] of Node.js) *)

Module Path.

(** An absolute, normalised path: the segments below the root. *)
Definition path := list string.

Definition path_eqb (p q : path) : bool :=
  if list_eq_dec string_dec p q then true else false.

(** The segments of a path string, split at every separator. *)
Fixpoint segments (s : string) : list string :=
  match s with
  | EmptyString => [EmptyString]
  | String c rest =>
      if (c =? "/")%char then EmptyString :: segments rest
      else match segments rest with
           | [] => [String c EmptyString]
           | seg :: more => String c seg :: more
           end
  end.

(** One step of normalisation: empty and [.] segments vanish, [..]
    climbs to the parent (the root is its own parent). *)
Definition enter (p : path) (seg : string) : path :=
  if (seg =? EmptyString) || (seg =? ".") then p
  else if seg =? ".." then removelast p
  else (p ++ [seg])%list.

Definition walk (p : path) (s : string) : path :=
  fold_left enter (segments s) p.

(** [path.join(base, ...parts)] for an absolute [base]. *)
Definition join (base : path) (parts : list string) : path :=
  fold_left walk parts base.

(** [path.resolve(base, to)] for an absolute [base]: an absolute
    [to] replaces [base]. *)
Definition resolve (base : path) (to : string) : path :=
  if JSString.startsWith to "/" then walk [] to else walk base to.

(** [path.basename(p)]; the root has the empty base name. *)
Definition basename (p : path) : string := last p EmptyString.

(** [path.dirname(p)]; the root is its own parent. *)
Definition dirname (p : path) : path := removelast p.

(** [q] is [p] or lies below it. *)
Fixpoint isPrefix (p q : path) : bool :=
  match p, q with
  | [], _ => true
  | _ :: _, [] => false
  | a :: p', b :: q' => (a =? b) && isPrefix p' q'
  end.

End Path.
Export Path.

(* ------------------------------------------------------------------ *)
(** ** JSON values and [JSON.stringify] *)

Module JSON.

(** A parsed JSON document.  A number is kept as the text
    [JSON.stringify] prints for it; the properties of an object are
    in enumeration order. *)
#[local] Unset Elimination Schemes.
Inductive Json : Type :=
| JNull
| JBool (b : bool)
| JNum (text : string)
| JStr (s : string)
| JArr (items : list Json)
| JObj (props : list (string * Json)).
#[local] Set Elimination Schemes.

Definition hexDigit (n : nat) : ascii :=
  nth n ["0"; "1"; "2"; "3"; "4"; "5"; "6"; "7"; "8"; "9";
         "a"; "b"; "c"; "d"; "e"; "f"]%char "0"%char.

(** The escape of one character in [QuoteJSONString]. *)
Definition escapeChar (c : ascii) : string :=
  let esc (x : ascii) := String JSString.backslash (String x EmptyString) in
  let n := nat_of_ascii c in
  if (n =? 8)%nat then esc "b"%char
  else if (n =? 9)%nat then esc "t"%char
  else if (n =? 10)%nat then esc "n"%char
  else if (n =? 12)%nat then esc "f"%char
  else if (n =? 13)%nat then esc "r"%char
  else if (n =? 34)%nat then esc JSString.dquote
  else if (n =? 92)%nat then esc JSString.backslash
  else if (n <? 32)%nat then
    String JSString.backslash
      (String "u" (String "0" (String "0"
        (String (hexDigit (n / 16))
          (String (hexDigit (n mod 16)) EmptyString)))))
  else String c EmptyString.

Fixpoint escape (s : string) : string :=
  match s with
  | EmptyString => EmptyString
  | String c rest => escapeChar c ++ escape rest
  end.

Definition QuoteJSONString (s : string) : string :=
  JSString.quoted (escape s).

(** [Array.prototype.join] *)
Fixpoint joinWith (sep : string) (l : list string) : string :=
  match l with
  | [] => EmptyString
  | [x] => x
  | x :: rest => x ++ sep ++ joinWith sep rest
  end.

(** The brackets of [SerializeJSONObject] / [SerializeJSONArray]
    around the already serialised members [partial]; [stepback] is
    the indentation of the enclosing level. *)
Definition enclose (open close gap stepback : string)
           (partial : list string) : string :=
  match partial with
  | [] => open ++ close
  | _ =>
      match gap with
      | EmptyString => open ++ joinWith "," partial ++ close
      | _ =>
          let indent := stepback ++ gap in
          open ++ JSString.nl ++ indent
          ++ joinWith ("," ++ JSString.nl ++ indent) partial
          ++ JSString.nl ++ stepback ++ close
      end
  end.

(** [SerializeJSONProperty] with indentation unit [gap] at
    indentation [indent]. *)
Fixpoint Serialize (gap indent : string) (v : Json) : string :=
  match v with
  | JNull => "null"
  | JBool true => "true"
  | JBool false => "false"
  | JNum text => text
  | JStr s => QuoteJSONString s
  | JArr items =>
      enclose "[" "]" gap indent
              (map (Serialize gap (indent ++ gap)) items)
  | JObj props =>
      enclose "{" "}" gap indent
              (map (fun kv =>
                      QuoteJSONString (fst kv) ++ ":"
                      ++ match gap with
                         | EmptyString => EmptyString
                         | _ => " "
                         end
                      ++ Serialize gap (indent ++ gap) (snd kv))
                   props)
  end.

(** [JSON.stringify(v)] *)
Definition stringify (v : Json) : string :=
  Serialize EmptyString EmptyString v.

(** [JSON.stringify(v, null, 2)] *)
Definition stringify2 (v : Json) : string :=
  Serialize "  " EmptyString v.

(** Truthiness of a parsed value. *)
Definition truthy (v : Json) : bool :=
  match v with
  | JNull => false
  | JBool b => b
  | JNum text => negb ((text =? "0") || (text =? "-0"))
  | JStr s => JSString.truthy s
  | JArr _ | JObj _ => true
  end.

Fixpoint getProp (k : string) (props : list (string * Json))
  : option Json :=
  match props with
  | [] => None
  | (k', v) :: rest => if k' =? k then Some v else getProp k rest
  end.

(** Assignment to a property named by a non-numeric key: an existing
    property keeps its place, a new one goes last. *)
Fixpoint setProp (k : string) (v : Json) (props : list (string * Json))
  : list (string * Json) :=
  match props with
  | [] => [(k, v)]
  | (k', v') :: rest =>
      if k' =? k then (k, v) :: rest else (k', v') :: setProp k v rest
  end.

End JSON.
Export JSON.

(* ------------------------------------------------------------------ *)
(** ** The directory tree *)

Module FS.

#[local] Unset Elimination Schemes.
Inductive node : Type :=
| File (data : string)
| Dir (entries : list (string * node)).
#[local] Set Elimination Schemes.

Inductive errno : Type := ENOENT | ENOTDIR | EISDIR | EEXIST.

Definition isDirectory (n : node) : bool :=
  match n with Dir _ => true | File _ => false end.

Fixpoint assoc (k : string) (es : list (string * node)) : option node :=
  match es with
  | [] => None
  | (k', v) :: rest => if k' =? k then Some v else assoc k rest
  end.

(** Replace the entry named [k], or add it at the end. *)
Fixpoint set (k : string) (v : node) (es : list (string * node))
  : list (string * node) :=
  match es with
  | [] => [(k, v)]
  | (k', v') :: rest =>
      if k' =? k then (k, v) :: rest else (k', v') :: set k v rest
  end.

(** The node at path [p] below [n], if any. *)
Fixpoint lookup (p : path) (n : node) : option node :=
  match p with
  | [] => Some n
  | s :: p' =>
      match n with
      | Dir es =>
          match assoc s es with
          | Some c => lookup p' c
          | None => None
          end
      | File _ => None
      end
  end.

(** The error code of a failed [lookup]. *)
Fixpoint missing (p : path) (n : node) : errno :=
  match p with
  | [] => ENOENT
  | s :: p' =>
      match n with
      | Dir es =>
          match assoc s es with
          | Some c => missing p' c
          | None => ENOENT
          end
      | File _ => ENOTDIR
      end
  end.

(** Rewrite the entry at [p], whose parent must be a directory;
    [f] receives the present entry, if any. *)
Fixpoint update (f : option node -> errno + node) (p : path) (n : node)
  : errno + node :=
  match p with
  | [] => f (Some n)
  | s :: p' =>
      match n with
      | File _ => inl ENOTDIR
      | Dir es =>
          let changed :=
            match p' with
            | [] => f (assoc s es)
            | _ :: _ =>
                match assoc s es with
                | Some c => update f p' c
                | None => inl ENOENT
                end
            end in
          match changed with
          | inr c' => inr (Dir (set s c' es))
          | inl e => inl e
          end
      end
  end.

(** [mkdir -p]: create the missing directories along [p]. *)
Fixpoint mkdirs (p : path) (n : node) : errno + node :=
  match n with
  | File _ => inl (match p with [] => EEXIST | _ :: _ => ENOTDIR end)
  | Dir es =>
      match p with
      | [] => inr n
      | s :: p' =>
          let child :=
            match assoc s es with Some c => c | None => Dir [] end in
          match mkdirs p' child with
          | inr c' => inr (Dir (set s c' es))
          | inl e => inl e
          end
      end
  end.

(** Directory listings name each entry once, at every level. *)
Fixpoint names (es : list (string * node)) : list string :=
  match es with
  | [] => []
  | (k, _) :: rest => k :: names rest
  end.

Fixpoint nodup_names (l : list string) : bool :=
  match l with
  | [] => true
  | k :: rest => negb (existsb (String.eqb k) rest) && nodup_names rest
  end.

Fixpoint wf (n : node) : bool :=
  match n with
  | File _ => true
  | Dir es =>
      nodup_names (names es) && forallb (fun entry => wf (snd entry)) es
  end.

End FS.
Export FS.

(* ------------------------------------------------------------------ *)
(** ** The install delegate (./install.js) *)

Inductive PackageManager : Type := npm | yarn | pnpm.

Module InstallOptions.
(** The argument object handed to [runInstall] (scaffold.ts, lines
    142-147). *)
Record t : Type := make {
  cwd : path;
  skipInstall : option bool;
  packageManager : option PackageManager;
  timeout : option Z;
}.
End InstallOptions.

Module InstallResult.
(** Modelled from the spec: the result record of the install
    delegate, whose module is not part of the sources read here.  It
    carries a success flag, the package manager actually used and
    diagnostics; [scaffold] reads the first two. *)
Record t : Type := make {
  success : bool;
  packageManager : string;
  diagnostics : string;
}.
End InstallResult.

(* ------------------------------------------------------------------ *)
(** ** Effects: exceptions, the world, the monad of [async] code *)

Inductive Exn : Type :=
| Error (message : string)                (* [throw new Error(message)] *)
| SystemError (code : errno) (p : path)   (* a failed system call *)
| SyntaxError                             (* [JSON.parse] *)
| TypeError.

(** What the program does besides rewriting the directory tree. *)
Inductive Event : Type :=
| ConsoleLog (line : string)
| RunInstall (args : InstallOptions.t).

Record World : Type := mkWorld {
  files : node;
  trace : list Event;
}.

Definition M (A : Type) : Type := World -> (Exn + A) * World.

Definition ret {A} (a : A) : M A := fun w => (inr a, w).

Definition throw {A} (e : Exn) : M A := fun w => (inl e, w).

Definition bind {A B} (m : M A) (k : A -> M B) : M B :=
  fun w =>
    match m w with
    | (inr a, w') => k a w'
    | (inl e, w') => (inl e, w')
    end.

Notation "x <- m ;; k" := (bind m (fun x => k))
  (at level 61, m at next level, right associativity).
Notation "m ;; k" := (bind m (fun _ => k))
  (at level 61, right associativity).

Definition emit (ev : Event) : M unit :=
  fun w => (inr tt, mkWorld (files w) (trace w ++ [ev])%list).

(** A step on the directory tree that may fail with an error code. *)
Definition syscall (p : path) (op : node -> errno + node) : M unit :=
  fun w =>
    match op (files w) with
    | inr t => (inr tt, mkWorld t (trace w))
    | inl code => (inl (SystemError code p), w)
    end.

(* ------------------------------------------------------------------ *)
(** ** The [fs-extra] calls made by [scaffold] *)

Module fs.

(** [fs.existsSync(p)] and [fs.pathExists(p)] *)
Definition exists_ (p : path) (t : node) : bool :=
  match lookup p t with Some _ => true | None => false end.

Definition pathExists (p : path) : M bool :=
  fun w => (inr (exists_ p (files w)), w).

(** [fs.readFile(p, "utf8")]: the bytes of the file, decoded. *)
Definition readFile (p : path) : M string :=
  fun w =>
    match lookup p (files w) with
    | Some (File data) => (inr (UTF8.decode data), w)
    | Some (Dir _) => (inl (SystemError EISDIR p), w)
    | None => (inl (SystemError (missing p (files w)) p), w)
    end.

(** [fs.writeFile(p, data, "utf8")]: the bytes of the string. *)
Definition writeFile (p : path) (data : string) : M unit :=
  syscall p (update (fun old =>
                       match old with
                       | Some (Dir _) => inl EISDIR
                       | _ => inr (File data)
                       end) p).

(** [fs.appendFile(p, data)]: the file is created when it does not
    exist. *)
Definition appendFile (p : path) (data : string) : M unit :=
  syscall p (update (fun old =>
                       match old with
                       | Some (Dir _) => inl EISDIR
                       | Some (File present) => inr (File (present ++ data))
                       | None => inr (File data)
                       end) p).

Definition toString (p : path) : string :=
  match p with
  | [] => "/"
  | _ => concat EmptyString (map (fun seg => "/" ++ seg) p)
  end.

(** The type conflicts refused by [checkPaths] (fs-extra,
    lib/util/stat.js) when the destination exists. *)
Definition conflict (src : path) (s : node) (dest : path)
           (d : option node) : option Exn :=
  match s, d with
  | Dir _, Some (File _) =>
      Some (Error ("Cannot overwrite non-directory '" ++ toString dest
                   ++ "' with directory '" ++ toString src ++ "'."))
  | File _, Some (Dir _) =>
      Some (Error ("Cannot overwrite directory '" ++ toString dest
                   ++ "' with non-directory '" ++ toString src ++ "'."))
  | _, _ => None
  end.

(** The loop of [onDir]: each entry of the source directory that
    passes [filter] is copied by [copyItem] over the entry of the
    same name among the destination entries [ds].  The entries are
    taken in listing order and the loop stops at the first error. *)
Definition onDir
           (copyItem : path -> path -> node -> option node
                       -> node * option Exn)
           (filter : path -> bool) (src dest : path)
  : list (string * node) -> list (string * node)
    -> list (string * node) * option Exn :=
  fix items (es ds : list (string * node)) {struct es} :=
    match es with
    | [] => (ds, None)
    | (name, child) :: rest =>
        let srcItem := (src ++ [name])%list in
        let destItem := (dest ++ [name])%list in
        if filter srcItem then
          match conflict srcItem child destItem (assoc name ds) with
          | Some e => (ds, Some e)
          | None =>
              match copyItem srcItem destItem child (assoc name ds) with
              | (c', Some e) => (set name c' ds, Some e)
              | (c', None) => items rest (set name c' ds)
              end
          end
        else items rest ds
    end.

(** [getStatsAndPerformCopy]: the copy of the source node [s], found
    at [src], over the destination node [d].  A file replaces a file;
    a directory is created when absent and filled by [onDir].  The
    result is the new destination node together with the first error
    met. *)
Fixpoint copyNode (filter : path -> bool) (src dest : path) (s : node)
         (d : option node) {struct s} : node * option Exn :=
  match s with
  | File data => (File data, None)
  | Dir es =>
      let present :=
        match d with Some (Dir ds) => ds | _ => [] end in
      let (ds', err) :=
        onDir (copyNode filter) filter src dest es present in
      (Dir ds', err)
  end.

(** [fs.copy(src, dest, { filter })] (fs-extra, lib/copy/copy.js).
    The source subtree is the one present when the call is made. *)
Definition copy (src dest : path) (filter : path -> bool) : M unit :=
  fun w =>
    match lookup src (files w) with
    | None => (inl (SystemError (missing src (files w)) src), w)
    | Some s =>
        let d := lookup dest (files w) in
        match d, missing dest (files w) with
        | None, ENOTDIR => (inl (SystemError ENOTDIR dest), w)
        | _, _ =>
            if path_eqb src dest then
              (inl (Error "Source and destination must not be the same."), w)
            else
              match conflict src s dest d with
              | Some e => (inl e, w)
              | None =>
                  if isDirectory s && isPrefix src dest then
                    (inl (Error ("Cannot copy '" ++ toString src
                                 ++ "' to a subdirectory of itself, '"
                                 ++ toString dest ++ "'.")), w)
                  else if negb (filter src) then (inr tt, w)
                  else
                    (syscall (dirname dest) (mkdirs (dirname dest)) ;;
                     let (n', err) := copyNode filter src dest s d in
                     syscall dest (update (fun _ => inr n') dest) ;;
                     match err with
                     | Some e => throw e
                     | None => ret tt
                     end) w
              end
        end
    end.

End fs.

(* ------------------------------------------------------------------ *)
(** ** src/lib/scaffold.ts *)

(** [interface ScaffoldOptions] (lines 9-21); an optional property is
    an [option]. *)
Record ScaffoldOptions : Type := mkOptions {
  appName : string;
  useTs : bool;
  template : option string;
  withContracts : option bool;
  horizonUrl : option string;
  sorobanUrl : option string;
  wallets : option (list string);
  defaults : option bool;
  skipInstall : option bool;
  packageManager : option PackageManager;
  installTimeout : option Z;
}.

(** What the module takes from its surroundings: its own directory
    ([__dirname], line 7), the working directory of the process, the
    JSON parser behind [fs.readJson] and the install delegate
    [runInstall], which works on the directory tree and reports an
    [InstallResult.t]. *)
Record Env : Type := mkEnv {
  __dirname : path;
  process_cwd : path;
  JSON_parse : string -> option Json;
  runInstall : InstallOptions.t -> node -> InstallResult.t * node;
}.

(** Truthiness of an optional flag. *)
Definition flag (b : option bool) : bool :=
  match b with Some true => true | _ => false end.

(** Line 37: [template || "default"]. *)
Definition templateName (options : ScaffoldOptions) : string :=
  JSString.orDefault (template options) "default".

(** Lines 39-41: the message of the error for a template that has no
    JavaScript variant. *)
Definition UnsupportedTemplateError (name : string) : Exn :=
  Error ("Template " ++ JSString.quoted name
         ++ " is not available for JavaScript yet. Please use the default template with --javascript.").

(** Line 43. *)
Definition resolvedTemplateName (options : ScaffoldOptions) : string :=
  if useTs options then templateName options else "js-template".

(** Lines 46-52. *)
Definition templateRoots (E : Env) : list path :=
  [ resolve (__dirname E) "../templates";
    resolve (__dirname E) "../../templates";
    resolve (__dirname E) "../../../src/templates";
    resolve (__dirname E) "../../nextellar/src/templates";
    resolve (__dirname E) "../../../nextellar/src/templates" ].

(** The probe of line 55. *)
Definition hasManifest (t : node) (name : string) (candidate : path)
  : bool :=
  fs.exists_ (join candidate [name; "package.json"]) t.

(** Lines 53-56: the first root that passes the probe, else the last
    root of the list. *)
Definition templateRoot (E : Env) (name : string) (t : node) : path :=
  match find (hasManifest t name) (templateRoots E) with
  | Some candidate => candidate
  | None => nth (List.length (templateRoots E) - 1) (templateRoots E) []
  end.

(** Line 59. *)
Definition targetDir (E : Env) (options : ScaffoldOptions) : path :=
  resolve (process_cwd E) (appName options).

(** Line 62. *)
Definition DirectoryExistsError (name : string) : Exn :=
  Error ("Directory " ++ JSString.quoted name ++ " already exists.").

(** Lines 66-69: the filter of the template copy. *)
Definition copyFilter (src : path) : bool :=
  let basename := basename src in
  negb (basename =? ".git") && negb (basename =? "node_modules").

(** Lines 65-71. *)
Definition copyTemplate (templateDir targetDir : path) : M unit :=
  fs.copy templateDir targetDir copyFilter.

(** [stripBom] of jsonfile: a leading byte-order mark is dropped. *)
Definition stripBom (content : string) : string :=
  match content with
  | String a (String b (String c rest)) =>
      if ((nat_of_ascii a =? 239) && (nat_of_ascii b =? 187)
          && (nat_of_ascii c =? 191))%nat
      then rest else content
  | _ => content
  end.

(** [fs.readJson(p)]: the file is read, decoded as UTF-8, stripped
    of a byte-order mark and parsed. *)
Definition readJson (E : Env) (p : path) : M Json :=
  content <- fs.readFile p ;;
  match JSON_parse E (stripBom content) with
  | Some v => ret v
  | None => throw SyntaxError
  end.

(** [fs.writeJson(p, v, { spaces: 2 })]: the text ends with a line
    feed. *)
Definition writeJson (p : path) (v : Json) : M unit :=
  fs.writeFile p (JSON.stringify2 v ++ JSString.nl).

(** Lines 86-87: the two script entries; a property set on an array
    is not part of its JSON text, and a primitive value takes no
    property (the module is strict code). *)
Definition addScripts (scripts : Json) : Exn + Json :=
  match scripts with
  | JObj props =>
      inr (JObj (setProp "contracts:test" (JStr "cd contracts && cargo test")
                   (setProp "contracts:build"
                      (JStr "cd contracts && stellar contract build")
                      props)))
  | JArr items => inr (JArr items)
  | _ => inl TypeError
  end.

(** Lines 85-87 on the parsed manifest. *)
Definition withContractScripts (pkgJson : Json) : Exn + Json :=
  match pkgJson with
  | JObj props =>
      let scripts :=
        match getProp "scripts" props with
        | Some v => if JSON.truthy v then v else JObj []
        | None => JObj []
        end in
      match addScripts scripts with
      | inr scripts' => inr (JObj (setProp "scripts" scripts' props))
      | inl e => inl e
      end
  | JArr items => inr (JArr items)
  | _ => inl TypeError
  end.

(** Line 94: the text appended to the environment sample. *)
Definition envExampleBlock : string :=
  JSString.nl ++ "# Soroban Smart Contracts" ++ JSString.nl
  ++ "NEXT_PUBLIC_HELLO_WORLD_CONTRACT_ID=C_REPLACE_WITH_YOUR_CONTRACT_ID"
  ++ JSString.nl.

(** Lines 74-95: the body of [if (withContracts)]. *)
Definition mergeContracts (E : Env) (templateRoot targetDir : path)
  : M unit :=
  let contractsTemplateDir := join templateRoot ["contracts-template"] in
  present <- fs.pathExists contractsTemplateDir ;;
  (if present then fs.copy contractsTemplateDir targetDir (fun _ => true)
   else ret tt) ;;
  let pkgJsonPath := join targetDir ["package.json"] in
  hasPkg <- fs.pathExists pkgJsonPath ;;
  (if hasPkg then
     pkgJson <- readJson E pkgJsonPath ;;
     match withContractScripts pkgJson with
     | inr pkgJson' => writeJson pkgJsonPath pkgJson'
     | inl e => throw e
     end
   else ret tt) ;;
  let envExamplePath := join targetDir [".env.example"] in
  fs.appendFile envExamplePath envExampleBlock.

(** Lines 98-108. *)
Definition replaceInFile (filePath : path)
           (replacements : list (string * string)) : M unit :=
  content <- fs.readFile filePath ;;
  let newContent :=
    fold_left (fun newContent entry =>
                 JSString.replaceAll newContent (fst entry) (snd entry))
              replacements content in
  fs.writeFile filePath newContent.

(** Line 115. *)
Definition network (options : ScaffoldOptions) : string :=
  match horizonUrl options with
  | Some url =>
      if JSString.truthy url && JSString.includes url "public"
      then "PUBLIC" else "TESTNET"
  | None => "TESTNET"
  end.

(** Lines 117-119. *)
Definition walletList (options : ScaffoldOptions) : string :=
  match wallets options with
  | Some (w :: ws) => JSON.stringify (JArr (map JStr (w :: ws)))
  | _ => JSON.stringify (JArr (map JStr ["freighter"; "albedo"; "lobstr"]))
  end.

(** Lines 110-120: the substitution map, in the order of its keys. *)
Definition config (options : ScaffoldOptions) : list (string * string) :=
  [ ("{{APP_NAME}}", appName options);
    ("{{HORIZON_URL}}",
     JSString.orDefault (horizonUrl options)
                        "https://horizon-testnet.stellar.org");
    ("{{SOROBAN_URL}}",
     JSString.orDefault (sorobanUrl options)
                        "https://soroban-testnet.stellar.org");
    ("{{NETWORK}}", network options);
    ("{{WALLETS}}", walletList options) ].

(** Lines 122-132. *)
Definition filesToProcess (targetDir : path) : list path :=
  [ join targetDir ["package.json"];
    join targetDir ["README.md"];
    join targetDir ["src/contexts/WalletProvider.tsx"];
    join targetDir ["src/contexts/WalletProvider.jsx"];
    join targetDir ["src/lib/stellar-wallet-kit.ts"];
    join targetDir ["src/lib/stellar-wallet-kit.js"];
    join targetDir ["src/hooks/useSorobanContract.ts"];
    join targetDir ["src/hooks/useSorobanContract.js"];
    join targetDir [".env.example"] ].

Fixpoint forEach {A} (l : list A) (body : A -> M unit) : M unit :=
  match l with
  | [] => ret tt
  | x :: rest => body x ;; forEach rest body
  end.

(** Lines 134-138. *)
Definition processFiles (targetDir : path)
           (replacements : list (string * string)) : M unit :=
  forEach (filesToProcess targetDir)
          (fun filePath =>
             present <- fs.pathExists filePath ;;
             if present then replaceInFile filePath replacements
             else ret tt).

(** Line 140: the check mark and its variation selector, in UTF-8. *)
Definition checkMark : string :=
  string_of_list_ascii
    (map ascii_of_nat [226; 156; 148; 239; 184; 143]).

Definition scaffolded (name : string) : string :=
  checkMark ++ "  Scaffolded " ++ JSString.quoted name ++ " from template.".

(** Lines 142-147: the call of the delegate. *)
Definition callInstall (E : Env) (args : InstallOptions.t)
  : M InstallResult.t :=
  fun w =>
    let (result, t) := runInstall E args (files w) in
    (inr result, mkWorld t (trace w ++ [RunInstall args])%list).

(** Lines 150-152. *)
Definition InstallFailureError (manager name : string) : Exn :=
  Error ("Dependency installation failed. Please run "
         ++ JSString.quoted (manager ++ " install")
         ++ " manually in " ++ JSString.quoted name ++ ".").

(** Lines 45-140: from the choice of the template root to the
    confirmation line. *)
Definition prepare (E : Env) (options : ScaffoldOptions) : M unit :=
  tree <- (fun w => (inr (files w), w)) ;;
  let templateRoot := templateRoot E (resolvedTemplateName options) tree in
  let templateDir := join templateRoot [resolvedTemplateName options] in
  let targetDir := targetDir E options in
  taken <- fs.pathExists targetDir ;;
  if taken then throw (DirectoryExistsError (appName options))
  else
    copyTemplate templateDir targetDir ;;
    (if flag (withContracts options)
     then mergeContracts E templateRoot targetDir
     else ret tt) ;;
    processFiles targetDir (config options) ;;
    emit (ConsoleLog (scaffolded (appName options))).

(** Lines 142-147: the argument of [runInstall]. *)
Definition installArgs (E : Env) (options : ScaffoldOptions)
  : InstallOptions.t :=
  InstallOptions.make (targetDir E options) (skipInstall options)
                      (packageManager options) (installTimeout options).

(** [export async function scaffold(options)] (lines 23-154). *)
Definition scaffold (E : Env) (options : ScaffoldOptions) : M unit :=
  if negb (useTs options) && negb (templateName options =? "default")
  then throw (UnsupportedTemplateError (templateName options))
  else
    prepare E options ;;
    result <- callInstall E (installArgs E options) ;;
    if negb (InstallResult.success result)
       && negb (flag (skipInstall options))
    then throw (InstallFailureError (InstallResult.packageManager result)
                                    (appName options))
    else ret tt.

(* ------------------------------------------------------------------ *)
(** ** Sample worlds and stand-ins for the collaborators *)

Module Sample.

(** A parser that knows the documents listed in [table]. *)
Definition parseFrom (table : list (string * Json)) (text : string)
  : option Json :=
  match find (fun entry => fst entry =? text) table with
  | Some entry => Some (snd entry)
  | None => None
  end.

(** A delegate that leaves the tree alone and reports [ok] with the
    package manager [manager]. *)
Definition delegate (ok : bool) (manager : string)
  : InstallOptions.t -> node -> InstallResult.t * node :=
  fun _ t => (InstallResult.make ok manager EmptyString, t).

Definition manifestText : string :=
  "{" ++ JSString.quoted "name" ++ ": " ++ JSString.quoted "{{APP_NAME}}"
  ++ "}".

Definition manifest : Json :=
  JObj [("name", JStr "{{APP_NAME}}")].

Definition env (ok : bool) (manager : string) : Env :=
  mkEnv ["pkg"; "dist"; "lib"] ["home"; "dev"]
        (parseFrom [(manifestText, manifest)])
        (delegate ok manager).

(** A template with version-control and dependency-cache entries at
    two depths, and no environment sample. *)
Definition defaultTemplate : node :=
  Dir [ ("package.json", File manifestText);
        ("README.md", File "# {{APP_NAME}} on {{NETWORK}}");
        (".git", Dir [("HEAD", File "ref: refs/heads/main")]);
        ("node_modules", Dir [("left-pad", Dir [("index.js", File "x")])]);
        ("src", Dir [ ("app.ts", File "export {}");
                      ("node_modules", Dir [("y", File "z")]);
                      ("vendor", Dir [(".git", File "gitdir: ../.git")]) ]) ].

Definition jsTemplate : node :=
  Dir [ ("package.json", File manifestText);
        (".env.example", File "NEXT_PUBLIC_HORIZON={{HORIZON_URL}}") ].

(** The tree before a run: the package with its templates below
    [/pkg/dist/templates], an empty working directory, and a
    directory [/home/dev/taken] that is already there. *)
Definition tree : node :=
  Dir [ ("pkg",
         Dir [("dist",
               Dir [ ("lib", Dir [("scaffold.js", File "...")]);
                     ("templates",
                      Dir [ ("default", defaultTemplate);
                            ("js-template", jsTemplate) ]) ])]);
        ("home",
         Dir [("dev", Dir [("taken", Dir [("notes.txt", File "keep")])])]) ].

Definition world : World := mkWorld tree [].

Definition request (name : string) (ts : bool) : ScaffoldOptions :=
  mkOptions name ts None None None None None None None None None.

End Sample.

(* ------------------------------------------------------------------ *)
(** ** Vocabulary of the statements *)

(** An error whose message contains [s]. *)
Definition mentions (e : Exn) (s : string) : bool :=
  match e with
  | Error message => JSString.includes message s
  | _ => false
  end.

(** Two requests that agree on every property but [defaults]. *)
Definition agreeButDefaults (a b : ScaffoldOptions) : Prop :=
  appName a = appName b
  /\ useTs a = useTs b
  /\ template a = template b
  /\ withContracts a = withContracts b
  /\ horizonUrl a = horizonUrl b
  /\ sorobanUrl a = sorobanUrl b
  /\ wallets a = wallets b
  /\ skipInstall a = skipInstall b
  /\ packageManager a = packageManager b
  /\ installTimeout a = installTimeout b.

(** The base names the filter of lines 66-69 refuses. *)
Definition excludedName (name : string) : bool :=
  (name =? ".git") || (name =? "node_modules").

(** A tree without the entries of an excluded name, at every depth. *)
Definition keepEntries (f : node -> node)
  : list (string * node) -> list (string * node) :=
  fix keep (es : list (string * node)) :=
    match es with
    | [] => []
    | (name, child) :: rest =>
        if excludedName name then keep rest
        else (name, f child) :: keep rest
    end.

Fixpoint pruned (n : node) : node :=
  match n with
  | File data => File data
  | Dir es => Dir (keepEntries pruned es)
  end.

(** The copy of an entry: a file with the same content, a directory
    as a directory. *)
Definition copyOf (entry copy : node) : Prop :=
  match entry with
  | File data => copy = File data
  | Dir _ => isDirectory copy = true
  end.

(** A computation that leaves the trace alone, however it ends. *)
Definition quiet {A} (m : M A) : Prop :=
  forall w, trace (snd (m w)) = trace w.

(** A computation that adds the event [ev] to the trace when it
    succeeds and nothing when it fails. *)
Definition logs {A} (ev : Event) (m : M A) : Prop :=
  forall w,
    match fst (m w) with
    | inr _ => trace (snd (m w)) = (trace w ++ [ev])%list
    | inl _ => trace (snd (m w)) = trace w
    end.


(** The text of a file after the loop of lines 104-106. *)
Definition substituted (replacements : list (string * string))
           (content : string) : string :=
  fold_left (fun newContent entry =>
               JSString.replaceAll newContent (fst entry) (snd entry))
            replacements content.

(** A request with every falsy optional property left out: an empty
    or default template name, a false contracts flag, an empty URL,
    an empty wallet list. *)
Definition withoutFalsy (options : ScaffoldOptions) : ScaffoldOptions :=
  mkOptions
    (appName options) (useTs options)
    (match template options with
     | Some t => if (t =? EmptyString) || (t =? "default") then None
                 else Some t
     | None => None
     end)
    (match withContracts options with
     | Some true => Some true
     | _ => None
     end)
    (match horizonUrl options with
     | Some (String c url) => Some (String c url)
     | _ => None
     end)
    (match sorobanUrl options with
     | Some (String c url) => Some (String c url)
     | _ => None
     end)
    (match wallets options with
     | Some (w :: ws) => Some (w :: ws)
     | _ => None
     end)
    (defaults options) (skipInstall options) (packageManager options)
    (installTimeout options).

(** Every character of the string has a code of 32 or more. *)
Fixpoint aboveC0 (s : string) : bool :=
  match s with
  | EmptyString => true
  | String c rest => (32 <=? nat_of_ascii c)%nat && aboveC0 rest
  end.

(** A path whose segments are names: none is empty, [.] or [..]. *)
Definition normalised (p : path) : Prop :=
  Forall (fun seg => seg <> EmptyString /\ seg <> "." /\ seg <> "..") p.

(** The files of lines 122-132, relative to the target directory. *)
Definition listedFiles : list path :=
  [ ["package.json"];
    ["README.md"];
    ["src"; "contexts"; "WalletProvider.tsx"];
    ["src"; "contexts"; "WalletProvider.jsx"];
    ["src"; "lib"; "stellar-wallet-kit.ts"];
    ["src"; "lib"; "stellar-wallet-kit.js"];
    ["src"; "hooks"; "useSorobanContract.ts"];
    ["src"; "hooks"; "useSorobanContract.js"];
    [".env.example"] ].

(** The filter of a copy that has none (lines 77-79). *)
Definition everything (src : path) : bool := true.

(** What a copy of [s] over [d] that ended without error has made:
    every file of the source is in the result with the content of the
    source, and what the destination held where the source has
    nothing is in the result as it was. *)
Definition overlaid (s : node) (d : option node) (result : node) : Prop :=
  (forall rel data,
      lookup rel s = Some (File data) ->
      lookup rel result = Some (File data))
  /\ (forall rel kept,
         lookup rel s = None ->
         match d with Some present => lookup rel present | None => None end
         = Some kept ->
         lookup rel result = Some kept).

(** A tree whose only template is named like a dependency cache. *)
Definition cacheNamedTree : node :=
  Dir [ ("pkg",
         Dir [("dist",
               Dir [("templates",
                     Dir [("node_modules",
                           Dir [ ("package.json", File "{}");
                                 ("README.md", File "# {{APP_NAME}}") ])])])]);
        ("home", Dir [("dev", Dir [])]) ].

(** A reader of JSON texts, for the texts that are an array of
    strings written without white space.  It follows the grammar of
    JSON strings: a string ends at an unescaped double quote, a
    backslash starts one of the escapes of the grammar, and a raw
    control character is refused.  A [\u] escape is read when it
    names an ASCII character. *)
Module JSONText.

Inductive Reading : Type :=
| AtStart
| AtOpen
| InString (text : string)
| AtEscape (text : string)
| AtUnicode (text : string) (digits : list nat)
| AfterString
| AfterComma
| AtEnd.

Definition hexValue (c : ascii) : option nat :=
  let n := nat_of_ascii c in
  if ((48 <=? n) && (n <=? 57))%nat then Some (n - 48)
  else if ((97 <=? n) && (n <=? 102))%nat then Some (n - 87)
  else if ((65 <=? n) && (n <=? 70))%nat then Some (n - 55)
  else None.

(** The character a one-letter escape stands for. *)
Definition escaped (c : ascii) : option ascii :=
  let n := nat_of_ascii c in
  if (n =? 34)%nat then Some (ascii_of_nat 34)
  else if (n =? 92)%nat then Some (ascii_of_nat 92)
  else if (n =? 47)%nat then Some (ascii_of_nat 47)
  else if (n =? 98)%nat then Some (ascii_of_nat 8)
  else if (n =? 102)%nat then Some (ascii_of_nat 12)
  else if (n =? 110)%nat then Some (ascii_of_nat 10)
  else if (n =? 114)%nat then Some (ascii_of_nat 13)
  else if (n =? 116)%nat then Some (ascii_of_nat 9)
  else None.

Fixpoint read (state : Reading) (items : list string) (s : string)
  : option (list string) :=
  match s with
  | EmptyString =>
      match state with
      | AtEnd => Some items
      | _ => None
      end
  | String c rest =>
      let n := nat_of_ascii c in
      match state with
      | AtStart => if (n =? 91)%nat then read AtOpen items rest else None
      | AtOpen =>
          if (n =? 93)%nat then read AtEnd items rest
          else if (n =? 34)%nat then read (InString EmptyString) items rest
          else None
      | AfterComma =>
          if (n =? 34)%nat then read (InString EmptyString) items rest
          else None
      | AfterString =>
          if (n =? 44)%nat then read AfterComma items rest
          else if (n =? 93)%nat then read AtEnd items rest
          else None
      | InString text =>
          if (n =? 34)%nat then read AfterString (items ++ [text])%list rest
          else if (n =? 92)%nat then read (AtEscape text) items rest
          else if (n <? 32)%nat then None
          else read (InString (text ++ String c EmptyString)) items rest
      | AtEscape text =>
          match escaped c with
          | Some d => read (InString (text ++ String d EmptyString)) items rest
          | None =>
              if (n =? 117)%nat then read (AtUnicode text []) items rest
              else None
          end
      | AtUnicode text digits =>
          match hexValue c with
          | None => None
          | Some v =>
              match digits with
              | [a; b; d] =>
                  let code := (((a * 16 + b) * 16 + d) * 16 + v)%nat in
                  if (code <? 128)%nat
                  then read (InString
                               (text ++ String (ascii_of_nat code) EmptyString))
                            items rest
                  else None
              | _ => read (AtUnicode text (digits ++ [v])%list) items rest
              end
          end
      | AtEnd => None
      end
  end.

(** The list of strings a JSON text stands for, if it is one. *)
Definition readStrings (s : string) : option (list string) :=
  read AtStart [] s.

End JSONText.

(** A string given by the codes of its bytes. *)
Definition bytes (codes : list nat) : string :=
  string_of_list_ascii (map ascii_of_nat codes).

(* ================================================================== *)
(** * Properties *)

(* ------------------------------------------------------------------ *)
(** ** Strings *)

Section StringFacts.

Import JSString.

Lemma prefix_append (b c : string) : String.prefix b (b ++ c) = true.
Proof.
  induction b as [|x b IH]; simpl.
  - now destruct c.
  - destruct (ascii_dec x x) as [_|ne]; [exact IH | now elim ne].
Qed.

Lemma prefix_weaken (b x c : string) :
  String.prefix b x = true -> String.prefix b (x ++ c) = true.
Proof.
  revert x; induction b as [|y b IH]; intros x H.
  - now destruct (x ++ c).
  - destruct x as [|z x]; simpl in *; [discriminate H|].
    destruct (ascii_dec y z); [now apply IH | discriminate H].
Qed.

Lemma includes_here (s sub : string) :
  startsWith s sub = true -> includes s sub = true.
Proof. intros H; destruct s; cbn [includes]; now rewrite H. Qed.

Lemma includes_later (c : ascii) (s sub : string) :
  includes s sub = true -> includes (String c s) sub = true.
Proof. intros H; cbn [includes]; rewrite H; apply orb_true_r. Qed.

Lemma includes_refl (b : string) : includes b b = true.
Proof.
  apply includes_here; unfold startsWith.
  induction b as [|x b IH]; simpl; trivial.
  destruct (ascii_dec x x) as [_|ne]; [exact IH | now elim ne].
Qed.

Lemma includes_app_r (a x b : string) :
  includes x b = true -> includes (a ++ x) b = true.
Proof.
  intros H; induction a as [|c a IH]; simpl app; trivial.
  now apply includes_later.
Qed.

Lemma includes_app_l (x c b : string) :
  includes x b = true -> includes (x ++ c) b = true.
Proof.
  induction x as [|y x IH]; cbn [includes]; intros H.
  - rewrite orb_false_r in H. apply includes_here; unfold startsWith.
    now apply (prefix_weaken b EmptyString c).
  - apply orb_true_iff in H as [H|H].
    + apply includes_here. exact (prefix_weaken b (String y x) c H).
    + simpl append. now apply includes_later, IH.
Qed.

Lemma includes_quoted (s : string) : includes (quoted s) s = true.
Proof.
  unfold quoted. apply includes_later, includes_app_l, includes_refl.
Qed.

Lemma includes_nonempty (s sub : string) :
  sub <> EmptyString -> includes s sub = true -> truthy s = true.
Proof.
  intros ne H; destruct s; simpl in *; trivial.
  destruct sub; [now elim ne | discriminate].
Qed.

End StringFacts.

(* ------------------------------------------------------------------ *)
(** ** Validation of the template name *)

Lemma UnsupportedTemplateError_mentions (name : string) :
  mentions (UnsupportedTemplateError name) name = true.
Proof.
  unfold UnsupportedTemplateError, mentions.
  apply (includes_app_r "Template "), includes_app_l.
  apply includes_quoted.
Qed.

Lemma templateName_given (options : ScaffoldOptions) (t : string) :
  template options = Some t -> t <> EmptyString -> templateName options = t.
Proof.
  unfold templateName; intros -> ne; simpl.
  destruct t; [now elim ne | reflexivity].
Qed.

(** C2: a request in untyped mode ([useTs = false]) whose template
    name is not ["default"] is rejected with the unsupported-template
    error, whose message names that template, and the world is the one
    before the call: nothing was written, so in particular the target
    directory was not created. *)
Theorem scaffold_untyped_template_rejected
        (E : Env) (options : ScaffoldOptions) (w : World) :
  useTs options = false ->
  templateName options <> "default" ->
  scaffold E options w
  = (inl (UnsupportedTemplateError (templateName options)), w)
  /\ mentions (UnsupportedTemplateError (templateName options))
              (templateName options) = true
  /\ fs.exists_ (targetDir E options) (files (snd (scaffold E options w)))
     = fs.exists_ (targetDir E options) (files w).
Proof.
  intros ts ne.
  assert (run : scaffold E options w
                = (inl (UnsupportedTemplateError (templateName options)), w)).
  { unfold scaffold. rewrite ts.
    destruct (String.eqb_spec (templateName options) "default") as [e|_];
      [now elim ne | reflexivity]. }
  split; [exact run|]. split.
  - apply UnsupportedTemplateError_mentions.
  - now rewrite run.
Qed.

Lemma scaffold_untyped_template_rejected_witness :
  let options :=
    mkOptions "demo" false (Some "minimal") None None None None None None
              None None in
  scaffold (Sample.env true "npm") options Sample.world
  = (inl (UnsupportedTemplateError "minimal"), Sample.world)
  /\ fs.exists_ ["home"; "dev"; "demo"]
                (files (snd (scaffold (Sample.env true "npm") options
                                      Sample.world)))
     = false.
Proof.
  intros options.
  destruct (scaffold_untyped_template_rejected
              (Sample.env true "npm") options Sample.world)
    as (run & _ & same).
  - reflexivity.
  - intros H; vm_compute in H; discriminate H.
  - split; [exact run | exact same].
Defined.

(* ------------------------------------------------------------------ *)
(** ** The check of the target directory *)

Lemma prepare_target_taken (E : Env) (options : ScaffoldOptions) (w : World) :
  fs.exists_ (targetDir E options) (files w) = true ->
  prepare E options w = (inl (DirectoryExistsError (appName options)), w).
Proof.
  intros taken. unfold prepare, bind, fs.pathExists; simpl.
  now rewrite taken.
Qed.

(** C3, as the code has it: when the target path already exists the
    call fails and the world is the one before the call; the error is
    the directory-exists error for every request that passes the
    template check (typed mode, or the default template). *)
Theorem scaffold_target_exists
        (E : Env) (options : ScaffoldOptions) (w : World) :
  fs.exists_ (targetDir E options) (files w) = true ->
  (exists e, scaffold E options w = (inl e, w))
  /\ (useTs options = true \/ templateName options = "default" ->
      scaffold E options w
      = (inl (DirectoryExistsError (appName options)), w)).
Proof.
  intros taken.
  assert (direct : negb (useTs options)
                   && negb (templateName options =? "default") = false ->
                   scaffold E options w
                   = (inl (DirectoryExistsError (appName options)), w)).
  { intros valid. unfold scaffold. rewrite valid. unfold bind at 1.
    now rewrite (prepare_target_taken E options w taken). }
  split.
  - destruct (negb (useTs options)
              && negb (templateName options =? "default")) eqn:check.
    + eexists. unfold scaffold. rewrite check. reflexivity.
    + eexists. now apply direct.
  - intros [ts | dflt]; apply direct.
    + now rewrite ts.
    + rewrite dflt. apply andb_false_r.
Qed.

Lemma scaffold_target_exists_witness :
  let options := Sample.request "taken" true in
  scaffold (Sample.env true "npm") options Sample.world
  = (inl (DirectoryExistsError "taken"), Sample.world).
Proof.
  intros options.
  apply (scaffold_target_exists (Sample.env true "npm") options Sample.world).
  - reflexivity.
  - left; reflexivity.
Defined.

(** C3 as stated fails: in untyped mode with a template other than the
    default one, an existing target directory does not lead to the
    directory-exists error, because the template check comes first. *)
Lemma scaffold_target_exists_template_error_first :
  let options :=
    mkOptions "taken" false (Some "minimal") None None None None None None
              None None in
  fs.exists_ (targetDir (Sample.env true "npm") options)
             (files Sample.world) = true
  /\ scaffold (Sample.env true "npm") options Sample.world
     = (inl (UnsupportedTemplateError "minimal"), Sample.world)
  /\ UnsupportedTemplateError "minimal" <> DirectoryExistsError "taken".
Proof.
  intros options. split; [reflexivity|]. split; [reflexivity|].
  intros H; vm_compute in H; discriminate H.
Qed.

(* ------------------------------------------------------------------ *)
(** ** Template resolution *)

Lemma find_first {A} (f : A -> bool) (l : list A) (x : A) :
  find f l = Some x ->
  exists before after,
    l = (before ++ x :: after)%list /\ f x = true
    /\ forall y, In y before -> f y = false.
Proof.
  induction l as [|a l IH]; simpl; [discriminate|].
  destruct (f a) eqn:fa.
  - intros [= ->]. exists [], l. repeat split; trivial. intros y [].
  - intros found. destruct (IH found) as (before & after & -> & fx & none).
    exists (a :: before), after. repeat split; trivial.
    intros y [<- | iny]; auto.
Qed.

(** C4: the template root is the first candidate of the search list
    at which the probe [{root}/{name}/package.json] exists; when the
    probe fails at every candidate it is the last candidate of the
    list.  Resolution is a total function: there is no error case. *)
Theorem templateRoot_first_match_else_last
        (E : Env) (name : string) (t : node) :
  (exists before after,
      templateRoots E = (before ++ templateRoot E name t :: after)%list
      /\ fs.exists_ (join (templateRoot E name t) [name; "package.json"]) t
         = true
      /\ forall candidate,
          In candidate before ->
          fs.exists_ (join candidate [name; "package.json"]) t = false)
  \/ ((forall candidate,
          In candidate (templateRoots E) ->
          fs.exists_ (join candidate [name; "package.json"]) t = false)
      /\ templateRoot E name t = last (templateRoots E) []).
Proof.
  unfold templateRoot.
  destruct (find (hasManifest t name) (templateRoots E)) as [c|] eqn:found.
  - left. destruct (find_first _ _ _ found) as (before & after & eq & hit & none).
    exists before, after. auto.
  - right. split; [|reflexivity].
    intros candidate inl. exact (find_none _ _ found candidate inl).
Qed.

(* ------------------------------------------------------------------ *)
(** ** The install step *)

Lemma InstallFailureError_mentions (manager name : string) :
  mentions (InstallFailureError manager name) manager = true
  /\ mentions (InstallFailureError manager name) name = true.
Proof.
  unfold InstallFailureError, mentions. split.
  - apply includes_app_r, includes_app_l.
    unfold JSString.quoted.
    apply includes_later, includes_app_l, includes_app_l, includes_refl.
  - apply includes_app_r, includes_app_r, includes_app_r, includes_app_l.
    apply includes_quoted.
Qed.

(** The two ways the call ends once the delegate has reported. *)
Lemma scaffold_after_prepare
      (E : Env) (options : ScaffoldOptions) (w w1 : World) :
  negb (useTs options) && negb (templateName options =? "default") = false ->
  prepare E options w = (inr tt, w1) ->
  scaffold E options w
  = let (result, t) := runInstall E (installArgs E options) (files w1) in
    let w2 := mkWorld t (trace w1 ++ [RunInstall (installArgs E options)])%list in
    if negb (InstallResult.success result) && negb (flag (skipInstall options))
    then (inl (InstallFailureError (InstallResult.packageManager result)
                                   (appName options)), w2)
    else (inr tt, w2).
Proof.
  intros valid ready. unfold scaffold. rewrite valid.
  unfold bind at 1. rewrite ready. unfold bind, callInstall.
  destruct (runInstall E (installArgs E options) (files w1)) as [result t].
  now destruct (negb (InstallResult.success result)
                && negb (flag (skipInstall options))).
Qed.

(** C6: when the project has been prepared and the delegate, called
    on it, reports failure, the call fails unless the skip flag is
    set; the error names the package manager of the delegate's report
    and the application directory.  With the skip flag set the call
    succeeds all the same. *)
Theorem scaffold_install_failure
        (E : Env) (options : ScaffoldOptions) (w w1 : World)
        (result : InstallResult.t) (t : node) :
  negb (useTs options) && negb (templateName options =? "default") = false ->
  prepare E options w = (inr tt, w1) ->
  runInstall E (installArgs E options) (files w1) = (result, t) ->
  InstallResult.success result = false ->
  let w2 := mkWorld t (trace w1 ++ [RunInstall (installArgs E options)])%list in
  let failure := InstallFailureError (InstallResult.packageManager result)
                                     (appName options) in
  (flag (skipInstall options) = false ->
   scaffold E options w = (inl failure, w2)
   /\ mentions failure (InstallResult.packageManager result) = true
   /\ mentions failure (appName options) = true)
  /\ (flag (skipInstall options) = true ->
      scaffold E options w = (inr tt, w2)).
Proof.
  intros valid ready report failed w2 failure.
  pose proof (scaffold_after_prepare E options w w1 valid ready) as run.
  rewrite report, failed in run. split; intros skip; rewrite skip in run.
  - split; [exact run|]. apply InstallFailureError_mentions.
  - exact run.
Qed.

Lemma scaffold_install_failure_witness :
  let E := Sample.env false "pnpm" in
  let escalate := Sample.request "demo" true in
  let skip :=
    mkOptions "demo4" true None None None None None None (Some true) None
              None in
  fst (scaffold E escalate Sample.world)
  = inl (InstallFailureError "pnpm" "demo")
  /\ fst (scaffold E skip Sample.world) = inr tt.
Proof.
  intros E escalate skip. split.
  - assert (fails := proj1 (scaffold_install_failure
                E escalate Sample.world
                (snd (prepare E escalate Sample.world))
                (InstallResult.make false "pnpm" EmptyString)
                (files (snd (prepare E escalate Sample.world)))
                eq_refl eq_refl eq_refl eq_refl)).
    destruct (fails eq_refl) as (run & _). now rewrite run.
  - assert (passes := proj2 (scaffold_install_failure
                E skip Sample.world
                (snd (prepare E skip Sample.world))
                (InstallResult.make false "pnpm" EmptyString)
                (files (snd (prepare E skip Sample.world)))
                eq_refl eq_refl eq_refl eq_refl)).
    now rewrite (passes eq_refl).
Defined.

(* ------------------------------------------------------------------ *)
(** ** The substitution map *)

(** C7: the network label is ["PUBLIC"] exactly when a horizon URL is
    given and contains ["public"]; it is ["TESTNET"] otherwise, in
    particular when no URL is given and the horizon token takes the
    test endpoint. *)
Theorem network_label (options : ScaffoldOptions) :
  In ("{{NETWORK}}", network options) (config options)
  /\ (network options = "PUBLIC" <->
      exists url, horizonUrl options = Some url
                  /\ JSString.includes url "public" = true)
  /\ (network options = "PUBLIC" \/ network options = "TESTNET")
  /\ (horizonUrl options = None ->
      network options = "TESTNET"
      /\ In ("{{HORIZON_URL}}", "https://horizon-testnet.stellar.org")
            (config options)).
Proof.
  unfold network, config. split; [simpl; tauto|].
  destruct (horizonUrl options) as [url|]; simpl.
  - destruct (JSString.includes url "public") eqn:inc.
    + rewrite (includes_nonempty url "public") by (discriminate || exact inc). simpl.
      repeat split; try tauto; try discriminate. now exists url.
    + rewrite andb_false_r. repeat split; try tauto; try discriminate.
      intros (u & [= <-] & H). congruence.
  - repeat split; try tauto; try discriminate.
    intros (u & H & _); discriminate.
Qed.

Lemma append_assoc (a b c : string) : (a ++ b) ++ c = a ++ b ++ c.
Proof. induction a as [|x a IH]; [reflexivity | simpl; now rewrite IH]. Qed.

Lemma append_empty (a : string) : a ++ EmptyString = a.
Proof. induction a as [|x a IH]; [reflexivity | simpl; now rewrite IH]. Qed.

(** The reader takes the escape of a character for that character. *)
Lemma read_escapeChar (c : ascii) (text : string) (items : list string)
      (rest : string) :
  JSONText.read (JSONText.InString text) items (escapeChar c ++ rest)
  = JSONText.read (JSONText.InString (text ++ String c EmptyString))
                  items rest.
Proof. destruct c as [[] [] [] [] [] [] [] []]; reflexivity. Qed.

Lemma read_escape (s : string) :
  forall (text : string) (items : list string) (rest : string),
    JSONText.read (JSONText.InString text) items (escape s ++ rest)
    = JSONText.read (JSONText.InString (text ++ s)) items rest.
Proof.
  induction s as [|c s IH]; intros text items rest.
  - simpl. now rewrite append_empty.
  - cbn [escape]. rewrite append_assoc, read_escapeChar, IH.
    now rewrite append_assoc.
Qed.

(** After an opening bracket or a comma, the reader takes a quoted
    string for the string. *)
Lemma read_QuoteJSONString (state : JSONText.Reading) (s : string)
      (items : list string) (rest : string) :
  state = JSONText.AtOpen \/ state = JSONText.AfterComma ->
  JSONText.read state items (QuoteJSONString s ++ rest)
  = JSONText.read JSONText.AfterString (items ++ [s])%list rest.
Proof.
  intros position. unfold QuoteJSONString, JSString.quoted.
  change (String JSString.dquote
                 (escape s ++ String JSString.dquote EmptyString) ++ rest)
    with (String JSString.dquote
                 ((escape s ++ String JSString.dquote EmptyString) ++ rest)).
  rewrite append_assoc.
  assert (opened :
            JSONText.read state items
              (String JSString.dquote
                      (escape s ++ String JSString.dquote EmptyString ++ rest))
            = JSONText.read (JSONText.InString EmptyString) items
                (escape s ++ String JSString.dquote EmptyString ++ rest))
    by (destruct position as [-> | ->]; reflexivity).
  rewrite opened, read_escape. reflexivity.
Qed.

Lemma read_items (ws : list string) :
  ws <> [] ->
  forall (state : JSONText.Reading) (items : list string),
    state = JSONText.AtOpen \/ state = JSONText.AfterComma ->
    JSONText.read state items
                  (joinWith "," (map QuoteJSONString ws) ++ "]")
    = Some (items ++ ws)%list.
Proof.
  induction ws as [|w ws IH]; intros nonempty state items position;
    [now elim nonempty|].
  destruct ws as [|w' ws].
  - cbn [map joinWith]. now rewrite (read_QuoteJSONString state w items "]").
  - change (joinWith "," (map QuoteJSONString (w :: w' :: ws)))
      with (QuoteJSONString w ++ ","
            ++ joinWith "," (map QuoteJSONString (w' :: ws))).
    rewrite !append_assoc.
    rewrite (read_QuoteJSONString state w items _ position).
    change (JSONText.read JSONText.AfterString (items ++ [w])%list
              ("," ++ joinWith "," (map QuoteJSONString (w' :: ws)) ++ "]"))
      with (JSONText.read JSONText.AfterComma (items ++ [w])%list
              (joinWith "," (map QuoteJSONString (w' :: ws)) ++ "]")).
    rewrite IH by (discriminate || now right).
    now rewrite <- app_assoc.
Qed.

(** The text [JSON.stringify] prints for a list of strings is read
    back as that list. *)
Lemma readStrings_stringify (ws : list string) :
  JSONText.readStrings (JSON.stringify (JArr (map JStr ws))) = Some ws.
Proof.
  destruct ws as [|w ws]; [reflexivity|].
  unfold JSON.stringify. cbn [Serialize]. rewrite map_map.
  cbn [Serialize]. unfold enclose. simpl map.
  unfold JSONText.readStrings.
  change (JSONText.read JSONText.AtStart []
            ("[" ++ joinWith "," (QuoteJSONString w
                                   :: map (fun x => QuoteJSONString x) ws)
                 ++ "]"))
    with (JSONText.read JSONText.AtOpen []
            (joinWith "," (map QuoteJSONString (w :: ws)) ++ "]")).
  now rewrite read_items by (discriminate || now left).
Qed.

(** C9: the wallet token is the JSON array of the given wallet
    identifiers when there is at least one, and the JSON array of
    [freighter], [albedo], [lobstr] when the list is absent or
    empty.  In both cases it is a JSON text: a reader of JSON gets the
    list back from it, whatever characters the identifiers hold. *)
Theorem wallet_list_token (options : ScaffoldOptions) :
  In ("{{WALLETS}}", walletList options) (config options)
  /\ (forall ws, wallets options = Some ws -> ws <> [] ->
        walletList options
        = "[" ++ joinWith "," (map QuoteJSONString ws) ++ "]"
        /\ JSONText.readStrings (walletList options) = Some ws)
  /\ (wallets options = None \/ wallets options = Some [] ->
      walletList options
      = "[" ++ JSString.quoted "freighter" ++ ","
        ++ JSString.quoted "albedo" ++ ","
        ++ JSString.quoted "lobstr" ++ "]"
      /\ JSONText.readStrings (walletList options)
         = Some ["freighter"; "albedo"; "lobstr"]).
Proof.
  unfold walletList, config. split; [simpl; tauto|]. split.
  - intros ws -> ne. destruct ws as [|w ws]; [now elim ne|]. split.
    + unfold JSON.stringify. cbn [Serialize]. rewrite map_map.
      cbn [Serialize]. unfold enclose. simpl map. reflexivity.
    + apply readStrings_stringify.
  - intros [-> | ->]; split; reflexivity.
Qed.

(** A list whose identifiers hold a double quote, a backslash and a
    line feed: the token, letter by letter, and the list read back. *)
Lemma wallet_list_token_witness :
  let q := String JSString.dquote EmptyString in
  let ws := ["my" ++ q ++ "wallet"; "a\b"; "x" ++ JSString.nl ++ "y"] in
  let options :=
    mkOptions "demo" true None None None None (Some ws) None None None
              None in
  walletList options
  = "[" ++ q ++ "my\" ++ q ++ "wallet" ++ q ++ ","
        ++ q ++ "a\\b" ++ q ++ ","
        ++ q ++ "x\ny" ++ q ++ "]"
  /\ JSONText.readStrings (walletList options) = Some ws.
Proof.
  intros q ws options.
  destruct (proj1 (proj2 (wallet_list_token options)) ws eq_refl)
    as [text back]; [discriminate|].
  split; [rewrite text; reflexivity | exact back].
Defined.

(* ------------------------------------------------------------------ *)
(** ** The [defaults] property *)

(** C10: [defaults] is not read.  Two requests that differ in it alone
    end alike from every world: the same result or error, the same
    directory tree, the same console line and the same call of the
    install delegate. *)
Theorem scaffold_ignores_defaults
        (E : Env) (a b : ScaffoldOptions) (w : World) :
  agreeButDefaults a b ->
  scaffold E a w = scaffold E b w.
Proof.
  destruct a, b; unfold agreeButDefaults; simpl.
  intros (-> & -> & -> & -> & -> & -> & -> & -> & -> & ->).
  reflexivity.
Qed.

Lemma scaffold_ignores_defaults_witness :
  let a :=
    mkOptions "demo" true None (Some true) None None None (Some true) None
              (Some yarn) (Some 1000%Z) in
  let b :=
    mkOptions "demo" true None (Some true) None None None (Some false) None
              (Some yarn) (Some 1000%Z) in
  defaults a <> defaults b
  /\ scaffold (Sample.env true "yarn") a Sample.world
     = scaffold (Sample.env true "yarn") b Sample.world.
Proof.
  intros a b. split; [discriminate|].
  apply scaffold_ignores_defaults. repeat split.
Defined.

(* ------------------------------------------------------------------ *)
(** ** Token substitution *)

Lemma includes_empty (s : string) : JSString.includes s EmptyString = true.
Proof. apply includes_here. now destruct s. Qed.

Lemma replaceAllFrom_absent (searchValue replaceValue : string) (s : string) :
  JSString.includes s searchValue = false ->
  forall before,
    JSString.replaceAllFrom searchValue replaceValue before 0 s = s.
Proof.
  induction s as [|c rest IH]; intros absent before.
  - destruct searchValue; [discriminate absent | reflexivity].
  - cbn [JSString.includes] in absent.
    apply orb_false_iff in absent as [here later].
    cbn [JSString.replaceAllFrom]. rewrite here.
    now rewrite (IH later).
Qed.

Lemma replaceAll_absent (s searchValue replaceValue : string) :
  JSString.includes s searchValue = false ->
  JSString.replaceAll s searchValue replaceValue = s.
Proof. intros absent. now apply replaceAllFrom_absent. Qed.

Lemma replacements_absent (replacements : list (string * string))
      (content : string) :
  (forall token value,
      In (token, value) replacements ->
      JSString.includes content token = false) ->
  fold_left (fun newContent entry =>
               JSString.replaceAll newContent (fst entry) (snd entry))
            replacements content
  = content.
Proof.
  induction replacements as [|[token value] rest IH]; intros absent;
    [reflexivity|].
  simpl. rewrite (replaceAll_absent content token value).
  - apply IH. intros t v inr. apply (absent t v). now right.
  - apply (absent token value). now left.
Qed.

Lemma set_present (k : string) (v : node) (es : list (string * node)) :
  assoc k es = Some v -> FS.set k v es = es.
Proof.
  induction es as [|[k' v'] es IH]; simpl; [discriminate|].
  destruct (String.eqb_spec k' k) as [->|_].
  - now intros [= ->].
  - intros H. now rewrite (IH H).
Qed.

Lemma update_same (f : option node -> errno + node) (p : path) :
  forall (t n : node),
    lookup p t = Some n -> f (Some n) = inr n -> update f p t = inr t.
Proof.
  induction p as [|s p IH]; intros t n found same.
  - injection found as <-. exact same.
  - destruct t as [|es]; [discriminate found|].
    simpl in found. cbn [update].
    destruct (assoc s es) as [c|] eqn:child; [|discriminate found].
    destruct p as [|s' p'].
    + injection found as <-. rewrite same. now rewrite set_present.
    + rewrite (IH c n found same). now rewrite set_present.
Qed.

Lemma assoc_set_same (k : string) (v : node) (es : list (string * node)) :
  assoc k (FS.set k v es) = Some v.
Proof.
  induction es as [|[k' v'] es IH]; simpl.
  - now rewrite String.eqb_refl.
  - destruct (String.eqb_spec k' k) as [->|ne]; simpl.
    + now rewrite String.eqb_refl.
    + destruct (String.eqb_spec k' k); [contradiction | exact IH].
Qed.

Lemma assoc_set_other (k k' : string) (v : node) (es : list (string * node)) :
  k <> k' -> assoc k' (FS.set k v es) = assoc k' es.
Proof.
  intros ne. induction es as [|[k0 v0] es IH]; simpl.
  - destruct (String.eqb_spec k k'); [contradiction | reflexivity].
  - destruct (String.eqb_spec k0 k) as [->|ne0]; simpl.
    + destruct (String.eqb_spec k k'); [contradiction | reflexivity].
    + now rewrite IH.
Qed.

(** Rewriting the file at [q] leaves every other file as it is. *)
Lemma update_file_frame (f : option node -> errno + node) (q : path) :
  forall (p : path) (t t' : node) (present kept : string),
    lookup q t = Some (File present) ->
    lookup p t = Some (File kept) ->
    p <> q ->
    update f q t = inr t' ->
    lookup p t' = Some (File kept).
Proof.
  induction q as [|s q IH]; intros p t t' present kept atq atp ne run.
  - injection atq as ->. destruct p; [now elim ne | discriminate atp].
  - destruct t as [|es]; [discriminate atq|].
    destruct p as [|s2 p]; [discriminate atp|].
    cbn [lookup] in atq, atp. cbn [update] in run.
    destruct (assoc s es) as [c|] eqn:child; [|discriminate atq].
    destruct (String.eqb_spec s s2) as [<-|diff].
    + rewrite child in atp.
      assert (ne' : p <> q) by (intros ->; now apply ne).
      destruct q as [|s' q'].
      * injection atq as ->. destruct p; [now elim ne' | discriminate atp].
      * destruct (update f (s' :: q') c) as [e|c'] eqn:below;
          [discriminate run|].
        injection run as <-. cbn [lookup]. rewrite assoc_set_same.
        exact (IH p c c' present kept atq atp ne' below).
    + assert (same : forall c', lookup (s2 :: p) (Dir (FS.set s c' es))
                                = Some (File kept)).
      { intros c'. cbn [lookup]. now rewrite (assoc_set_other s s2). }
      destruct q as [|s' q'].
      * destruct (f (Some c)) as [e|c']; [discriminate run|].
        injection run as <-. apply same.
      * destruct (update f (s' :: q') c) as [e|c']; [discriminate run|].
        injection run as <-. apply same.
Qed.

Lemma replaceInFile_keeps_token_free
      (filePath : path) (replacements : list (string * string))
      (w : World) (p : path) (content : string) :
  lookup p (files w) = Some (File content) ->
  UTF8.valid content ->
  (forall token value,
      In (token, value) replacements ->
      JSString.includes content token = false) ->
  lookup p (files (snd (replaceInFile filePath replacements w)))
  = Some (File content).
Proof.
  intros present wellFormed absent.
  unfold replaceInFile, bind, fs.readFile.
  destruct (lookup filePath (files w)) as [[data|es]|] eqn:target;
    [|exact present|exact present].
  destruct (list_eq_dec string_dec p filePath) as [->|ne].
  - rewrite present in target. injection target as <-.
    rewrite wellFormed.
    rewrite (replacements_absent replacements content absent).
    unfold fs.writeFile, syscall.
    now rewrite (update_same _ filePath (files w) (File content) present
                             eq_refl).
  - unfold fs.writeFile, syscall.
    match goal with
    | |- context [update ?f filePath (files w)] =>
        destruct (update f filePath (files w)) as [e|t'] eqn:run
    end; [exact present|].
    exact (update_file_frame _ filePath p (files w) t' data content
                             target present ne run).
Qed.

Lemma processFiles_keeps_token_free
      (targetDir : path) (replacements : list (string * string))
      (w : World) (p : path) (content : string) :
  lookup p (files w) = Some (File content) ->
  UTF8.valid content ->
  (forall token value,
      In (token, value) replacements ->
      JSString.includes content token = false) ->
  lookup p (files (snd (processFiles targetDir replacements w)))
  = Some (File content).
Proof.
  intros present wellFormed absent. unfold processFiles.
  revert w present.
  induction (filesToProcess targetDir) as [|filePath rest IH];
    intros w present; [exact present|].
  cbn [forEach]. unfold bind at 1. unfold bind at 1.
  unfold fs.pathExists at 1.
  destruct (fs.exists_ filePath (files w)).
  - pose proof (replaceInFile_keeps_token_free filePath replacements w p
                                               content present wellFormed
                                               absent)
      as kept.
    destruct (replaceInFile filePath replacements w) as [[e|[]] w'];
      [exact kept | now apply IH].
  - now apply IH.
Qed.

(** C8, as the code has it: when the content of a file is well-formed
    UTF-8 and none of the tokens of the substitution map occurs in
    it, [replaceInFile] succeeds on it and leaves the world as it
    was, and the file has the same bytes after the substitution loop
    over the listed files, however that loop ends. *)
Theorem replaceInFile_without_tokens
        (filePath : path) (replacements : list (string * string))
        (w : World) (content : string) :
  lookup filePath (files w) = Some (File content) ->
  UTF8.valid content ->
  (forall token value,
      In (token, value) replacements ->
      JSString.includes content token = false) ->
  replaceInFile filePath replacements w = (inr tt, w)
  /\ forall targetDir,
      lookup filePath
             (files (snd (processFiles targetDir replacements w)))
      = Some (File content).
Proof.
  intros present wellFormed absent. split.
  - unfold replaceInFile, bind, fs.readFile. rewrite present, wellFormed.
    rewrite (replacements_absent replacements content absent).
    unfold fs.writeFile, syscall.
    rewrite (update_same _ filePath (files w) (File content) present eq_refl).
    now destruct w.
  - intros targetDir. now apply processFiles_keeps_token_free.
Qed.

Lemma replaceInFile_without_tokens_witness :
  let w := snd (prepare (Sample.env true "npm") (Sample.request "demo" true)
                        Sample.world) in
  let p := ["home"; "dev"; "demo"; "src"; "app.ts"] in
  lookup p (files w) = Some (File "export {}")
  /\ replaceInFile p (config (Sample.request "demo" true)) w = (inr tt, w).
Proof.
  intros w p. split; [reflexivity|].
  apply (replaceInFile_without_tokens p _ w "export {}");
    [reflexivity | reflexivity |].
  intros token value inc. simpl in inc.
  repeat (destruct inc as [[= <- _] | inc]; [reflexivity|]).
  destruct inc.
Defined.

(** C8 as stated fails: a file whose bytes are not well-formed UTF-8
    is rewritten although no token occurs in it.  The byte 233 (a
    Latin-1 letter) is read as U+FFFD and written back as the three
    bytes of that character. *)
Lemma replaceInFile_rewrites_invalid_utf8 :
  let content := "caf" ++ String (ascii_of_nat 233) EmptyString in
  let w := mkWorld (Dir [("README.md", File content)]) [] in
  let replacements := config (Sample.request "demo" true) in
  forallb (fun entry => negb (JSString.includes content (fst entry)))
          replacements = true
  /\ lookup ["README.md"]
            (files (snd (replaceInFile ["README.md"] replacements w)))
     = Some (File ("caf" ++ UTF8.replacement))
  /\ "caf" ++ UTF8.replacement <> content.
Proof.
  intros content w replacements.
  split; [reflexivity|]. split; [reflexivity|].
  intros H; vm_compute in H; discriminate H.
Qed.

(* ------------------------------------------------------------------ *)
(** ** The contracts feature and the environment sample *)

Lemma bind_inr {A B} (m : M A) (k : A -> M B) (w w' : World) (b : B) :
  bind m k w = (inr b, w') ->
  exists a w1, m w = (inr a, w1) /\ k a w1 = (inr b, w').
Proof.
  unfold bind. destruct (m w) as [[e|a] w1]; [discriminate|].
  intros run. now exists a, w1.
Qed.

Lemma update_result (f : option node -> errno + node) (p : path) :
  forall t t' : node,
    update f p t = inr t' ->
    exists n, f (lookup p t) = inr n /\ lookup p t' = Some n.
Proof.
  induction p as [|s p IH]; intros t t' run.
  - exists t'. now split.
  - destruct t as [|es]; [discriminate run|]. cbn [update] in run.
    destruct p as [|s' p'].
    + destruct (f (assoc s es)) as [e|c'] eqn:fc; [discriminate run|].
      injection run as <-. exists c'. cbn [lookup].
      rewrite assoc_set_same. split; [|reflexivity].
      now destruct (assoc s es).
    + destruct (assoc s es) as [c|] eqn:child; [|discriminate run].
      destruct (update f (s' :: p') c) as [e|c'] eqn:below;
        [discriminate run|].
      injection run as <-. destruct (IH c c' below) as (n & fn & found).
      exists n. cbn [lookup] in *. rewrite child, assoc_set_same.
      now split.
Qed.

(** After [fs.appendFile(p, data)] has succeeded there is a file at
    [p]: the former file with [data] at its end, or a new file that
    holds [data]. *)
Lemma appendFile_result (p : path) (data : string) (w w' : World) :
  fs.appendFile p data w = (inr tt, w') ->
  match lookup p (files w) with
  | Some (File present) => lookup p (files w') = Some (File (present ++ data))
  | Some (Dir _) => False
  | None => lookup p (files w') = Some (File data)
  end.
Proof.
  unfold fs.appendFile, syscall.
  match goal with
  | |- context [update ?f p (files w)] =>
      destruct (update f p (files w)) as [e|t'] eqn:run
  end; [discriminate|].
  intros [= <-]. destruct (update_result _ p _ _ run) as (n & fn & found).
  simpl. destruct (lookup p (files w)) as [[present|es]|];
    try discriminate fn; now injection fn as <-.
Qed.

(** Whenever the contracts block (lines 74-95) succeeds, the target
    holds an environment sample that ends with the block of line 94,
    whether or not there was one before the append. *)
Lemma mergeContracts_env_example
      (E : Env) (templateRoot targetDir : path) (w w' : World) :
  mergeContracts E templateRoot targetDir w = (inr tt, w') ->
  exists content,
    lookup (join targetDir [".env.example"]) (files w') = Some (File content)
    /\ (content = envExampleBlock
        \/ exists present, content = present ++ envExampleBlock).
Proof.
  unfold mergeContracts. intros run.
  apply bind_inr in run as (present & w1 & _ & run).
  apply bind_inr in run as (? & w2 & _ & run).
  apply bind_inr in run as (hasPkg & w3 & _ & run).
  apply bind_inr in run as (? & w4 & _ & run).
  apply appendFile_result in run.
  destruct (lookup (join targetDir [".env.example"]) (files w4))
    as [[old|es]|]; [| contradiction |]; eauto.
Qed.

(** C1, on the code: a typed request with the contracts flag, from a
    template that has no environment sample.  The run succeeds; the
    copied project had no [.env.example] before the contracts block,
    and has one afterwards, made of the appended block alone. *)
Theorem scaffold_contracts_creates_env_example :
  let E := Sample.env true "npm" in
  let options :=
    mkOptions "demo3" true None (Some true) None None None None None None
              None in
  let envExamplePath := join (targetDir E options) [".env.example"] in
  let templateDir := ["pkg"; "dist"; "templates"; "default"] in
  lookup (templateDir ++ [".env.example"])%list Sample.tree = None
  /\ fs.exists_ envExamplePath
                (files (snd (copyTemplate templateDir (targetDir E options)
                                          Sample.world))) = false
  /\ fst (scaffold E options Sample.world) = inr tt
  /\ lookup envExamplePath (files (snd (scaffold E options Sample.world)))
     = Some (File envExampleBlock).
Proof. vm_compute. repeat split. Qed.

(* ------------------------------------------------------------------ *)
(** ** The template copy *)

(** Induction on a tree, with the hypothesis for every entry of a
    directory. *)
Lemma node_induction (P : node -> Prop) :
  (forall data, P (File data)) ->
  (forall es, Forall (fun entry => P (snd entry)) es -> P (Dir es)) ->
  forall n, P n.
Proof.
  intros onFile onDirectory.
  exact (fix go (n : node) : P n :=
           match n with
           | File data => onFile data
           | Dir es =>
               onDirectory es
                 ((fix all (l : list (string * node))
                     : Forall (fun entry => P (snd entry)) l :=
                     match l with
                     | [] => Forall_nil _
                     | entry :: rest =>
                         Forall_cons entry
                           (match entry as e return P (snd e) with
                            | (_, child) => go child
                            end)
                           (all rest)
                     end) es)
           end).
Qed.

Lemma copyFilter_entry (src : path) (name : string) :
  copyFilter (src ++ [name])%list = negb (excludedName name).
Proof.
  unfold copyFilter, excludedName, basename. rewrite last_last.
  now rewrite negb_orb.
Qed.

Lemma copyFilter_basename (src : path) :
  copyFilter src = negb (excludedName (basename src)).
Proof. unfold copyFilter, excludedName. now rewrite negb_orb. Qed.

Lemma set_absent (k : string) (v : node) (es : list (string * node)) :
  assoc k es = None -> FS.set k v es = (es ++ [(k, v)])%list.
Proof.
  induction es as [|[k' v'] es IH]; simpl; [reflexivity|].
  destruct (k' =? k); [discriminate|]. intros H. now rewrite IH.
Qed.

Lemma assoc_app_absent (k : string) (es more : list (string * node)) :
  assoc k es = None -> assoc k (es ++ more) = assoc k more.
Proof.
  induction es as [|[k' v'] es IH]; simpl; [reflexivity|].
  destruct (k' =? k); [discriminate | exact IH].
Qed.

Lemma existsb_eqb_false (k : string) (l : list string) :
  existsb (String.eqb k) l = false -> forall k', In k' l -> k <> k'.
Proof.
  intros none k' member ->.
  assert (existsb (String.eqb k') l = true) as hit.
  { apply existsb_exists. exists k'. split; [exact member|].
    apply String.eqb_refl. }
  congruence.
Qed.

Lemma conflict_fresh (src : path) (s : node) (dest : path) :
  fs.conflict src s dest None = None.
Proof. now destruct s. Qed.

(** Into a destination that holds none of the names to come, the loop
    of [onDir] adds the kept entries after the present ones. *)
Lemma onDir_fresh (src dest : path) (es : list (string * node)) :
  Forall (fun entry =>
            wf (snd entry) = true ->
            forall src dest,
              fs.copyNode copyFilter src dest (snd entry) None
              = (pruned (snd entry), None)) es ->
  nodup_names (names es) = true ->
  forallb (fun entry => wf (snd entry)) es = true ->
  forall ds,
    (forall k, In k (names es) -> assoc k ds = None) ->
    fs.onDir (fs.copyNode copyFilter) copyFilter src dest es ds
    = ((ds ++ keepEntries pruned es)%list, None).
Proof.
  induction 1 as [|[name child] rest here _ IH]; intros distinct sound ds free.
  - simpl. now rewrite app_nil_r.
  - cbn [names nodup_names] in distinct.
    apply andb_true_iff in distinct as [fresh distinct].
    apply negb_true_iff in fresh.
    cbn [forallb snd] in sound. apply andb_true_iff in sound as [ok sound].
    cbn [fs.onDir keepEntries]. rewrite copyFilter_entry.
    destruct (excludedName name); cbn [negb].
    + apply (IH distinct sound). intros k member. apply free. now right.
    + rewrite (free name) by now left.
      rewrite conflict_fresh. cbn [snd] in here. rewrite (here ok).
      rewrite set_absent by (apply free; now left).
      rewrite (IH distinct sound).
      * now rewrite <- app_assoc.
      * intros k member. rewrite assoc_app_absent by (apply free; now right).
        simpl. destruct (String.eqb_spec name k) as [same|_]; [|reflexivity].
        now elim (existsb_eqb_false name (names rest) fresh k member).
Qed.

(** The copy of a well-formed tree into a fresh place is the tree
    without its excluded entries, and raises no error. *)
Lemma copyNode_fresh (s : node) :
  wf s = true ->
  forall src dest,
    fs.copyNode copyFilter src dest s None = (pruned s, None).
Proof.
  induction s as [data|es IH] using node_induction; intros sound src dest;
    [reflexivity|].
  cbn [wf] in sound. apply andb_true_iff in sound as [distinct sound].
  cbn [fs.copyNode pruned].
  now rewrite (onDir_fresh src dest es IH distinct sound [])
    by reflexivity.
Qed.

Lemma assoc_keepEntries (name : string) (es : list (string * node)) :
  assoc name (keepEntries pruned es)
  = if excludedName name then None
    else option_map pruned (assoc name es).
Proof.
  induction es as [|[k c] es IH]; simpl.
  - now destruct (excludedName name).
  - destruct (excludedName k) eqn:out.
    + rewrite IH. destruct (String.eqb_spec k name) as [->|_]; [|reflexivity].
      now rewrite out.
    + simpl. destruct (String.eqb_spec k name) as [->|_]; [|exact IH].
      now rewrite out.
Qed.

(** What is found in a pruned tree. *)
Lemma lookup_pruned (rel : path) :
  forall s,
    lookup rel (pruned s)
    = if existsb excludedName rel then None
      else option_map pruned (lookup rel s).
Proof.
  induction rel as [|name rel IH]; intros s; [reflexivity|].
  destruct s as [data|es]; cbn [pruned lookup existsb].
  - now destruct (excludedName name || existsb excludedName rel).
  - rewrite assoc_keepEntries.
    destruct (excludedName name); [reflexivity|]. cbn [orb].
    destruct (assoc name es) as [c|]; cbn [option_map].
    + apply IH.
    + now destruct (existsb excludedName rel).
Qed.

Lemma copyOf_pruned (entry : node) : copyOf entry (pruned entry).
Proof. now destruct entry. Qed.

Lemma lookup_app (p q : path) :
  forall t,
    lookup (p ++ q)%list t
    = match lookup p t with
      | Some n => lookup q n
      | None => None
      end.
Proof.
  induction p as [|s p IH]; intros t; [reflexivity|].
  destruct t as [|es]; cbn [app lookup]; [reflexivity|].
  destruct (assoc s es); [apply IH | reflexivity].
Qed.

(** A successful copy into a fresh place either does nothing, when
    the source itself is refused by the filter, or puts the pruned
    source at the destination. *)
Lemma copy_fresh_result (src dest : path) (w w' : World) (tpl : node) :
  lookup src (files w) = Some tpl ->
  wf tpl = true ->
  lookup dest (files w) = None ->
  fs.copy src dest copyFilter w = (inr tt, w') ->
  if excludedName (basename src) then w' = w
  else lookup dest (files w') = Some (pruned tpl).
Proof.
  intros source sound nothing run.
  unfold fs.copy in run. rewrite source, nothing in run.
  rewrite conflict_fresh, copyFilter_basename in run.
  rewrite (copyNode_fresh tpl sound) in run.
  destruct (missing dest (files w)); try discriminate run;
    (destruct (path_eqb src dest); [discriminate run|]);
    (destruct (isDirectory tpl && isPrefix src dest);
     [discriminate run|]);
    (destruct (excludedName (basename src)); cbn [negb] in run;
     [ now injection run as <- |]);
    apply bind_inr in run as (? & w1 & _ & run);
    apply bind_inr in run as (? & w2 & placed & run);
    unfold ret in run; injection run as <-;
    unfold syscall in placed;
    (destruct (update (fun _ => inr (pruned tpl)) dest (files w1))
      as [e|t2] eqn:put; [discriminate placed|]);
    injection placed as _ <-; cbn [files];
    destruct (update_result _ dest _ _ put) as (n & [= <-] & there);
    exact there.
Qed.

(** C5: after the template copy of lines 65-71 into a target that did
    not exist, an entry of the template lies in the target, at the
    same relative path, exactly when neither the template directory
    nor any directory or file on the way to the entry is named [.git]
    or [node_modules]: an entry so named is absent together with
    everything below it, every other entry is copied, and the target
    holds nothing else. *)
Theorem copyTemplate_excludes
        (templateDir targetDir : path) (w w' : World) (tpl : node) :
  lookup templateDir (files w) = Some tpl ->
  wf tpl = true ->
  fs.exists_ targetDir (files w) = false ->
  copyTemplate templateDir targetDir w = (inr tt, w') ->
  forall rel : path,
    (forall entry : node,
        lookup rel tpl = Some entry ->
        if excludedName (basename templateDir) || existsb excludedName rel
        then lookup (targetDir ++ rel)%list (files w') = None
        else exists copy,
            lookup (targetDir ++ rel)%list (files w') = Some copy
            /\ copyOf entry copy)
    /\ (forall copy : node,
           lookup (targetDir ++ rel)%list (files w') = Some copy ->
           excludedName (basename templateDir) = false
           /\ existsb excludedName rel = false
           /\ exists entry, lookup rel tpl = Some entry /\ copyOf entry copy).
Proof.
  intros source sound absent run rel.
  unfold fs.exists_ in absent.
  destruct (lookup targetDir (files w)) as [|] eqn:nothing;
    [discriminate absent|].
  pose proof (copy_fresh_result templateDir targetDir w w' tpl
                                source sound nothing run) as placed.
  rewrite lookup_app.
  destruct (excludedName (basename templateDir)); cbn [orb].
  - subst w'. rewrite nothing. split; [reflexivity | discriminate].
  - rewrite placed, lookup_pruned. split.
    + intros entry found. rewrite found.
      destruct (existsb excludedName rel); [reflexivity|].
      exists (pruned entry). split; [reflexivity | apply copyOf_pruned].
    + intros copy there.
      destruct (existsb excludedName rel); [discriminate there|].
      destruct (lookup rel tpl) as [entry|]; [|discriminate there].
      injection there as <-. repeat split; trivial.
      exists entry. split; [reflexivity | apply copyOf_pruned].
Qed.

Lemma copyTemplate_excludes_witness :
  let templateDir := ["pkg"; "dist"; "templates"; "default"] in
  let targetDir := ["home"; "dev"; "demo"] in
  let w' := snd (copyTemplate templateDir targetDir Sample.world) in
  lookup (targetDir ++ ["src"; "node_modules"; "y"])%list (files w') = None
  /\ lookup (targetDir ++ ["src"; "vendor"; ".git"])%list (files w') = None
  /\ exists copy,
      lookup (targetDir ++ ["src"; "app.ts"])%list (files w') = Some copy
      /\ copyOf (File "export {}") copy.
Proof.
  intros templateDir targetDir w'.
  assert (rule := copyTemplate_excludes
                    templateDir targetDir Sample.world w'
                    Sample.defaultTemplate eq_refl eq_refl eq_refl eq_refl).
  split; [|split].
  - exact (proj1 (rule ["src"; "node_modules"; "y"]) (File "z") eq_refl).
  - exact (proj1 (rule ["src"; "vendor"; ".git"])
                 (File "gitdir: ../.git") eq_refl).
  - exact (proj1 (rule ["src"; "app.ts"]) (File "export {}") eq_refl).
Defined.

(* ------------------------------------------------------------------ *)
(** ** Runs on the sample world *)

Example replaceAll_every_occurrence :
  JSString.replaceAll "{{A}}-{{A}}-{{B}}" "{{A}}" "x" = "x-x-{{B}}".
Proof. reflexivity. Qed.

Example replaceAll_dollar_patterns :
  JSString.replaceAll "a{{A}}b" "{{A}}" "[$$|$&|$`|$']"
  = "a[$|{{A}}|a|b]b".
Proof. reflexivity. Qed.

Example resolve_climbs :
  resolve ["pkg"; "dist"; "lib"] "../../nextellar/src/templates"
  = ["pkg"; "nextellar"; "src"; "templates"].
Proof. reflexivity. Qed.

Example templateRoot_found :
  templateRoot (Sample.env true "npm") "default" Sample.tree
  = ["pkg"; "dist"; "templates"].
Proof. reflexivity. Qed.

Example templateRoot_fallback :
  templateRoot (Sample.env true "npm") "missing" Sample.tree
  = ["nextellar"; "src"; "templates"].
Proof. reflexivity. Qed.

(** A typed request with defaults: the project is created, its tokens
    are replaced and the delegate is called once on the target. *)
Example scenario_default_request :
  let E := Sample.env true "npm" in
  let options := Sample.request "demo" true in
  let result := scaffold E options Sample.world in
  fst result = inr tt
  /\ lookup ["home"; "dev"; "demo"; "README.md"] (files (snd result))
     = Some (File "# demo on TESTNET")
  /\ lookup ["home"; "dev"; "demo"; "package.json"] (files (snd result))
     = Some (File ("{" ++ JSString.quoted "name" ++ ": "
                   ++ JSString.quoted "demo" ++ "}"))
  /\ lookup ["home"; "dev"; "demo"; ".git"] (files (snd result)) = None
  /\ trace (snd result)
     = [ ConsoleLog (scaffolded "demo");
         RunInstall (InstallOptions.make ["home"; "dev"; "demo"]
                                         None None None) ].
Proof. vm_compute. repeat split. Qed.

Example scenario_public_network :
  let E := Sample.env true "npm" in
  let options :=
    mkOptions "demo2" true None None
              (Some "https://horizon.stellar.org/public") None None None
              None None None in
  lookup ["home"; "dev"; "demo2"; "README.md"]
         (files (snd (scaffold E options Sample.world)))
  = Some (File "# demo2 on PUBLIC").
Proof. reflexivity. Qed.

(** The contracts flag without a contracts template: the overlay is
    skipped and the manifest still gets its two scripts. *)
Example scenario_contracts_without_overlay :
  let E := Sample.env true "npm" in
  let options :=
    mkOptions "demo3" true None (Some true) None None None None None None
              None in
  let result := scaffold E options Sample.world in
  fst result = inr tt
  /\ lookup ["home"; "dev"; "demo3"; "package.json"] (files (snd result))
     = Some (File (JSON.stringify2
                     (JObj [ ("name", JStr "demo3");
                             ("scripts",
                              JObj [ ("contracts:build",
                                      JStr "cd contracts && stellar contract build");
                                     ("contracts:test",
                                      JStr "cd contracts && cargo test") ]) ])
                   ++ JSString.nl)).
Proof. vm_compute. repeat split. Qed.

Example scenario_untyped_request :
  let E := Sample.env true "npm" in
  let result := scaffold E (Sample.request "demo" false) Sample.world in
  fst result = inr tt
  /\ lookup ["home"; "dev"; "demo"; ".env.example"] (files (snd result))
     = Some (File "NEXT_PUBLIC_HORIZON=https://horizon-testnet.stellar.org").
Proof. vm_compute. repeat split. Qed.

(* ------------------------------------------------------------------ *)
(** ** The trace of a run *)

Lemma quiet_ret {A} (a : A) : quiet (ret a).
Proof. intros w. reflexivity. Qed.

Lemma quiet_throw {A} (e : Exn) : quiet (@throw A e).
Proof. intros w. reflexivity. Qed.

Lemma quiet_bind {A B} (m : M A) (k : A -> M B) :
  quiet m -> (forall a, quiet (k a)) -> quiet (bind m k).
Proof.
  intros qm qk w. unfold bind. specialize (qm w).
  destruct (m w) as [[e|a] w1]; simpl in *; [exact qm|].
  now rewrite (qk a w1).
Qed.

Lemma quiet_syscall (p : path) (op : node -> errno + node) :
  quiet (syscall p op).
Proof. intros w. unfold syscall. now destruct (op (files w)). Qed.

Lemma quiet_pathExists (p : path) : quiet (fs.pathExists p).
Proof. intros w. reflexivity. Qed.

Lemma quiet_readFile (p : path) : quiet (fs.readFile p).
Proof.
  intros w. unfold fs.readFile.
  now destruct (lookup p (files w)) as [[data|es]|].
Qed.

Lemma quiet_copy (src dest : path) (filter : path -> bool) :
  quiet (fs.copy src dest filter).
Proof.
  intros w. unfold fs.copy.
  destruct (lookup src (files w)) as [s|]; [|reflexivity].
  assert (rest :
            trace (snd
              (if path_eqb src dest
               then (inl (Error "Source and destination must not be the same."), w)
               else
                 match fs.conflict src s dest (lookup dest (files w)) with
                 | Some e => (inl e, w)
                 | None =>
                     if isDirectory s && isPrefix src dest
                     then (inl (Error ("Cannot copy '" ++ fs.toString src
                                       ++ "' to a subdirectory of itself, '"
                                       ++ fs.toString dest ++ "'.")), w)
                     else if negb (filter src) then (inr tt, w)
                     else
                       (syscall (dirname dest) (mkdirs (dirname dest)) ;;
                        let (n', err) :=
                          fs.copyNode filter src dest s
                                      (lookup dest (files w)) in
                        syscall dest (update (fun _ => inr n') dest) ;;
                        match err with
                        | Some e => throw e
                        | None => ret tt
                        end) w
                 end))
            = trace w).
  { destruct (path_eqb src dest); [reflexivity|].
    destruct (fs.conflict src s dest (lookup dest (files w)));
      [reflexivity|].
    destruct (isDirectory s && isPrefix src dest); [reflexivity|].
    destruct (negb (filter src)); [reflexivity|].
    apply quiet_bind; [apply quiet_syscall|]. intros _.
    destruct (fs.copyNode filter src dest s (lookup dest (files w)))
      as [n' err].
    apply quiet_bind; [apply quiet_syscall|]. intros _.
    destruct err; [apply quiet_throw | apply quiet_ret]. }
  destruct (lookup dest (files w)); [exact rest|].
  destruct (missing dest (files w)); try exact rest. reflexivity.
Qed.

Lemma quiet_replaceInFile (filePath : path)
      (replacements : list (string * string)) :
  quiet (replaceInFile filePath replacements).
Proof.
  apply quiet_bind; [apply quiet_readFile|]. intros content.
  apply quiet_syscall.
Qed.

Lemma quiet_forEach {A} (l : list A) (body : A -> M unit) :
  (forall x, quiet (body x)) -> quiet (forEach l body).
Proof.
  intros qb. induction l as [|x l IH]; [apply quiet_ret|].
  apply quiet_bind; [apply qb | intros _; exact IH].
Qed.

Lemma quiet_processFiles (targetDir : path)
      (replacements : list (string * string)) :
  quiet (processFiles targetDir replacements).
Proof.
  apply quiet_forEach. intros filePath.
  apply quiet_bind; [apply quiet_pathExists|]. intros [|].
  - apply quiet_replaceInFile.
  - apply quiet_ret.
Qed.

Lemma quiet_mergeContracts (E : Env) (templateRoot targetDir : path) :
  quiet (mergeContracts E templateRoot targetDir).
Proof.
  unfold mergeContracts.
  apply quiet_bind; [apply quiet_pathExists|]. intros present.
  apply quiet_bind.
  { destruct present; [apply quiet_copy | apply quiet_ret]. }
  intros _. apply quiet_bind; [apply quiet_pathExists|]. intros hasPkg.
  apply quiet_bind.
  { destruct hasPkg; [|apply quiet_ret].
    apply quiet_bind.
    - unfold readJson. apply quiet_bind; [apply quiet_readFile|].
      intros content.
      destruct (JSON_parse E (stripBom content));
        [apply quiet_ret | apply quiet_throw].
    - intros pkgJson. destruct (withContractScripts pkgJson);
        [apply quiet_throw | apply quiet_syscall]. }
  intros _. apply quiet_syscall.
Qed.

Lemma logs_bind_quiet {A B} (ev : Event) (m : M A) (k : A -> M B) :
  quiet m -> (forall a, logs ev (k a)) -> logs ev (bind m k).
Proof.
  intros qm lk w. unfold bind. specialize (qm w).
  destruct (m w) as [[e|a] w1]; simpl in *; [exact qm|].
  specialize (lk a w1). rewrite <- qm. exact lk.
Qed.

Lemma logs_prepare (E : Env) (options : ScaffoldOptions) :
  logs (ConsoleLog (scaffolded (appName options))) (prepare E options).
Proof.
  unfold prepare.
  apply logs_bind_quiet; [intros w; reflexivity|]. intros tree.
  apply logs_bind_quiet; [apply quiet_pathExists|]. intros [|].
  - intros w. reflexivity.
  - apply logs_bind_quiet; [apply quiet_copy|]. intros _.
    apply logs_bind_quiet.
    { destruct (flag (withContracts options));
        [apply quiet_mergeContracts | apply quiet_ret]. }
    intros _. apply logs_bind_quiet; [apply quiet_processFiles|].
    intros _ w. reflexivity.
Qed.

Lemma scaffold_prepare_failed
      (E : Env) (options : ScaffoldOptions) (w w1 : World) (e : Exn) :
  negb (useTs options) && negb (templateName options =? "default") = false ->
  prepare E options w = (inl e, w1) ->
  scaffold E options w = (inl e, w1).
Proof.
  intros valid failed. unfold scaffold. rewrite valid.
  unfold bind at 1. now rewrite failed.
Qed.

(** X1: a run adds to the trace either nothing, or the confirmation
    line followed by one call of the install delegate with the target
    directory, the skip flag, the package manager and the timeout of
    the request.  A run that succeeds always adds both. *)
Theorem scaffold_trace (E : Env) (options : ScaffoldOptions) (w : World) :
  let after := trace (snd (scaffold E options w)) in
  let both :=
    (trace w ++ [ ConsoleLog (scaffolded (appName options));
                  RunInstall (InstallOptions.make
                                (targetDir E options) (skipInstall options)
                                (packageManager options)
                                (installTimeout options)) ])%list in
  match fst (scaffold E options w) with
  | inr _ => after = both
  | inl _ => after = trace w \/ after = both
  end.
Proof.
  destruct (negb (useTs options) && negb (templateName options =? "default"))
    eqn:valid.
  { unfold scaffold. rewrite valid. now left. }
  pose proof (logs_prepare E options w) as logged.
  destruct (prepare E options w) as [[e|[]] w1] eqn:ready; simpl in logged.
  - rewrite (scaffold_prepare_failed E options w w1 e valid ready). now left.
  - rewrite (scaffold_after_prepare E options w w1 valid ready).
    unfold installArgs.
    destruct (runInstall E _ (files w1)) as [result t].
    destruct (negb (InstallResult.success result)
              && negb (flag (skipInstall options)));
      simpl; rewrite logged, <- app_assoc; auto.
Qed.

(* ------------------------------------------------------------------ *)
(** ** Where a run writes *)
















Lemma filesToProcess_listed (targetDir : path) :
  filesToProcess targetDir
  = map (fun rel => (targetDir ++ rel)%list) listedFiles.
Proof.
  unfold filesToProcess, listedFiles, join, walk. cbn.
  now rewrite <- !app_assoc.
Qed.







(* ------------------------------------------------------------------ *)
(** ** The substitution loop *)

Lemma replaceInFile_other
      (filePath : path) (replacements : list (string * string))
      (w : World) (p : path) (content : string) :
  p <> filePath ->
  lookup p (files w) = Some (File content) ->
  lookup p (files (snd (replaceInFile filePath replacements w)))
  = Some (File content).
Proof.
  intros ne present. unfold replaceInFile, bind, fs.readFile.
  destruct (lookup filePath (files w)) as [[data|es]|] eqn:target;
    [|exact present|exact present].
  unfold fs.writeFile, syscall.
  match goal with
  | |- context [update ?f filePath (files w)] =>
      destruct (update f filePath (files w)) as [e|t'] eqn:run
  end; [exact present|].
  exact (update_file_frame _ filePath p (files w) t' data content
                           target present ne run).
Qed.

Lemma substitution_loop_other
      (replacements : list (string * string)) (l : list path)
      (p : path) (content : string) :
  ~ In p l ->
  forall w,
    lookup p (files w) = Some (File content) ->
    lookup p (files (snd (forEach l (fun filePath =>
                            present <- fs.pathExists filePath ;;
                            if present
                            then replaceInFile filePath replacements
                            else ret tt) w)))
    = Some (File content).
Proof.
  induction l as [|filePath rest IH]; intros out w present; [exact present|].
  assert (ne : p <> filePath) by (intros ->; apply out; now left).
  assert (out' : ~ In p rest) by (intros member; apply out; now right).
  cbn [forEach]. unfold bind at 1. unfold bind at 1.
  unfold fs.pathExists at 1.
  destruct (fs.exists_ filePath (files w)).
  - pose proof (replaceInFile_other filePath replacements w p content
                                    ne present) as kept.
    destruct (replaceInFile filePath replacements w) as [[e|[]] w'];
      [exact kept | now apply IH].
  - now apply IH.
Qed.

(** X3: the substitution loop rewrites the listed files only: any
    other file, whatever tokens it holds, has the same content after
    the loop, however the loop ends. *)
Theorem processFiles_only_listed
        (targetDir : path) (replacements : list (string * string))
        (w : World) (p : path) (content : string) :
  ~ In p (filesToProcess targetDir) ->
  lookup p (files w) = Some (File content) ->
  lookup p (files (snd (processFiles targetDir replacements w)))
  = Some (File content).
Proof.
  intros out present. unfold processFiles.
  now apply substitution_loop_other.
Qed.

Lemma processFiles_only_listed_witness :
  let w :=
    snd (copyTemplate ["pkg"; "dist"; "templates"; "js-template"]
                      ["home"; "dev"; "demo"] Sample.world) in
  let p := ["pkg"; "dist"; "templates"; "js-template"; ".env.example"] in
  lookup p (files (snd (processFiles ["home"; "dev"; "demo"]
                                     (config (Sample.request "demo" false))
                                     w)))
  = Some (File "NEXT_PUBLIC_HORIZON={{HORIZON_URL}}").
Proof.
  intros w p.
  apply (processFiles_only_listed ["home"; "dev"; "demo"] _ w p).
  - rewrite filesToProcess_listed. simpl.
    intros member. repeat (destruct member as [H | member];
                           [discriminate H|]). exact member.
  - reflexivity.
Defined.

Lemma replaceInFile_result
      (filePath : path) (replacements : list (string * string))
      (w w' : World) (content : string) :
  lookup filePath (files w) = Some (File content) ->
  replaceInFile filePath replacements w = (inr tt, w') ->
  lookup filePath (files w')
  = Some (File (substituted replacements (UTF8.decode content))).
Proof.
  intros present run. unfold replaceInFile, bind, fs.readFile in run.
  rewrite present in run. unfold fs.writeFile, syscall in run.
  match type of run with
  | context [update ?f filePath (files w)] =>
      destruct (update f filePath (files w)) as [e|t'] eqn:put
  end; [discriminate run|].
  injection run as <-. cbn [files].
  destruct (update_result _ filePath _ _ put) as (n & fn & found).
  rewrite present in fn. now injection fn as <-.
Qed.

Lemma NoDup_below (root : path) (l : list path) :
  NoDup l -> NoDup (map (fun rel => (root ++ rel)%list) l).
Proof.
  induction 1 as [|rel l fresh _ IH]; simpl; constructor; [|exact IH].
  intros member. apply in_map_iff in member as (other & same & there).
  apply app_inv_head in same. subst other. now apply fresh.
Qed.

Lemma listedFiles_distinct (targetDir : path) :
  NoDup (filesToProcess targetDir).
Proof.
  rewrite filesToProcess_listed.
  apply NoDup_below.
  - unfold listedFiles.
    repeat (constructor;
            [simpl; intros member;
             repeat (destruct member as [H | member]; [discriminate H|]);
             exact member|]).
    constructor.
Qed.

Lemma substitution_loop_result
      (replacements : list (string * string)) (l : list path)
      (filePath : path) (content : string) :
  NoDup l ->
  In filePath l ->
  forall w w',
    lookup filePath (files w) = Some (File content) ->
    forEach l (fun q =>
                 present <- fs.pathExists q ;;
                 if present then replaceInFile q replacements else ret tt) w
    = (inr tt, w') ->
    lookup filePath (files w')
    = Some (File (substituted replacements (UTF8.decode content))).
Proof.
  induction 1 as [|q rest fresh distinct IH]; intros member w w' present run;
    [destruct member|].
  cbn [forEach] in run.
  apply bind_inr in run as ([] & w1 & step & run).
  apply bind_inr in step as (there & w0 & probe & step).
  unfold fs.pathExists in probe. injection probe as <- <-.
  destruct member as [-> | member].
  - unfold fs.exists_ in step. rewrite present in step.
    pose proof (replaceInFile_result filePath replacements w w1 content
                                     present step) as done.
    pose proof (substitution_loop_other replacements rest filePath _
                                        fresh w1 done) as kept.
    now rewrite run in kept.
  - apply (IH member w1 w'); [|exact run].
    assert (ne : filePath <> q) by (intros ->; now apply fresh).
    destruct (fs.exists_ q (files w)).
    + pose proof (replaceInFile_other q replacements w filePath content
                                      ne present) as kept.
      now rewrite step in kept.
    + now injection step as <-.
Qed.

(** X4: when the substitution loop succeeds, every listed file that
    was there has had each token of the map replaced, in the order of
    the map, throughout its text, the text being its bytes read as
    UTF-8. *)
Theorem processFiles_substitutes
        (targetDir : path) (replacements : list (string * string))
        (w w' : World) (filePath : path) (content : string) :
  In filePath (filesToProcess targetDir) ->
  lookup filePath (files w) = Some (File content) ->
  processFiles targetDir replacements w = (inr tt, w') ->
  lookup filePath (files w')
  = Some (File (fold_left
                  (fun newContent entry =>
                     JSString.replaceAll newContent (fst entry) (snd entry))
                  replacements (UTF8.decode content))).
Proof.
  intros member present run.
  exact (substitution_loop_result replacements (filesToProcess targetDir)
                                  filePath content
                                  (listedFiles_distinct targetDir) member
                                  w w' present run).
Qed.

Lemma processFiles_substitutes_witness :
  let target := ["home"; "dev"; "demo"] in
  let w :=
    snd (copyTemplate ["pkg"; "dist"; "templates"; "default"] target
                      Sample.world) in
  let replacements := config (Sample.request "demo" true) in
  lookup (target ++ ["README.md"])%list
         (files (snd (processFiles target replacements w)))
  = Some (File "# demo on TESTNET").
Proof.
  intros target w replacements.
  exact (processFiles_substitutes
           target replacements w (snd (processFiles target replacements w))
           (target ++ ["README.md"])%list "# {{APP_NAME}} on {{NETWORK}}"
           (or_intror (or_introl eq_refl)) eq_refl eq_refl).
Defined.

(* ------------------------------------------------------------------ *)
(** ** [replaceAll] with a plain replacement *)

Lemma includes_cons (c : ascii) (s sub : string) :
  JSString.includes (String c s) sub = false ->
  JSString.startsWith (String c s) sub = false
  /\ JSString.includes s sub = false.
Proof.
  cbn [JSString.includes]. intros H. now apply orb_false_iff in H.
Qed.

Lemma GetSubstitution_plain (matched before after replacement : string) :
  JSString.includes replacement "$" = false ->
  JSString.GetSubstitution matched before after replacement = replacement.
Proof.
  induction replacement as [|c rest IH]; intros plain; [reflexivity|].
  apply includes_cons in plain as [here later].
  cbn [JSString.GetSubstitution].
  destruct (Ascii.eqb_spec c "$") as [->|_].
  - unfold JSString.startsWith in here. simpl in here. now destruct rest.
  - now rewrite (IH later).
Qed.

Lemma replaceAllFrom_plain_before
      (searchValue replaceValue : string) (s : string) :
  JSString.includes replaceValue "$" = false ->
  forall (skip : nat) (before before' : string),
    JSString.replaceAllFrom searchValue replaceValue before skip s
    = JSString.replaceAllFrom searchValue replaceValue before' skip s.
Proof.
  intros plain. induction s as [|c rest IH]; intros skip before before'.
  - cbn [JSString.replaceAllFrom].
    destruct skip, searchValue; trivial.
    now rewrite !GetSubstitution_plain.
  - cbn [JSString.replaceAllFrom]. destruct skip as [|k].
    + rewrite !(GetSubstitution_plain _ _ _ _ plain).
      destruct (JSString.startsWith (String c rest) searchValue).
      * destruct (String.length searchValue);
          now rewrite (IH _ _ (before' ++ String c EmptyString)).
      * now rewrite (IH _ _ (before' ++ String c EmptyString)).
    + apply IH.
Qed.

Lemma replaceAllFrom_skip
      (searchValue replaceValue : string) (s : string) :
  searchValue <> EmptyString ->
  JSString.includes replaceValue "$" = false ->
  forall (skip : nat) (before : string),
    JSString.replaceAllFrom searchValue replaceValue before skip s
    = JSString.replaceAll (JSString.drop skip s) searchValue replaceValue.
Proof.
  intros nonempty plain. unfold JSString.replaceAll.
  induction s as [|c rest IH]; intros skip before.
  - destruct skip; cbn [JSString.drop JSString.replaceAllFrom];
      destruct searchValue; trivial; now elim nonempty.
  - destruct skip as [|k]; cbn [JSString.drop].
    + apply replaceAllFrom_plain_before, plain.
    + cbn [JSString.replaceAllFrom]. apply IH.
Qed.

Lemma drop_length_append (a b : string) :
  JSString.drop (String.length a) (a ++ b) = b.
Proof. induction a as [|c a IH]; [reflexivity | exact IH]. Qed.

(** X5: with a search string that is not empty and a replacement
    that holds no dollar sign, [replaceAll] scans from the left: where
    the search string starts it puts the replacement and goes on after
    the occurrence, so that occurrences do not overlap and the text
    put in is not searched again; elsewhere it keeps the character. *)
Theorem replaceAll_scan (searchValue replaceValue : string) :
  searchValue <> EmptyString ->
  JSString.includes replaceValue "$" = false ->
  JSString.replaceAll EmptyString searchValue replaceValue = EmptyString
  /\ (forall rest,
         JSString.replaceAll (searchValue ++ rest) searchValue replaceValue
         = replaceValue ++ JSString.replaceAll rest searchValue replaceValue)
  /\ (forall c rest,
         JSString.startsWith (String c rest) searchValue = false ->
         JSString.replaceAll (String c rest) searchValue replaceValue
         = String c (JSString.replaceAll rest searchValue replaceValue)).
Proof.
  intros nonempty plain. split; [|split].
  - destruct searchValue; [now elim nonempty | reflexivity].
  - intros rest. destruct searchValue as [|k key]; [now elim nonempty|].
    unfold JSString.replaceAll at 1. simpl append.
    cbn [JSString.replaceAllFrom].
    pose proof (prefix_append (String k key) rest) as starts.
    simpl append in starts. unfold JSString.startsWith. rewrite starts.
    rewrite (GetSubstitution_plain _ _ _ _ plain).
    cbn [String.length].
    rewrite (replaceAllFrom_skip (String k key) replaceValue (key ++ rest)
                                 nonempty plain).
    now rewrite drop_length_append.
  - intros c rest differs. unfold JSString.replaceAll at 1.
    cbn [JSString.replaceAllFrom]. rewrite differs.
    now rewrite (replaceAllFrom_skip searchValue replaceValue rest
                                     nonempty plain 0).
Qed.

Lemma replaceAll_scan_witness :
  JSString.replaceAll ("{{APP_NAME}}" ++ "-{{APP_NAME}}") "{{APP_NAME}}" "demo"
  = "demo" ++ JSString.replaceAll "-{{APP_NAME}}" "{{APP_NAME}}" "demo".
Proof.
  apply (replaceAll_scan "{{APP_NAME}}" "demo"); [discriminate | reflexivity].
Defined.

(* ------------------------------------------------------------------ *)
(** ** The manifest scripts *)

Lemma getProp_setProp_same (k : string) (v : Json)
      (props : list (string * Json)) :
  getProp k (setProp k v props) = Some v.
Proof.
  induction props as [|[k' v'] props IH]; simpl.
  - now rewrite String.eqb_refl.
  - destruct (String.eqb_spec k' k) as [->|ne]; simpl.
    + now rewrite String.eqb_refl.
    + destruct (String.eqb_spec k' k); [contradiction | exact IH].
Qed.

Lemma getProp_setProp_other (k k' : string) (v : Json)
      (props : list (string * Json)) :
  k <> k' -> getProp k' (setProp k v props) = getProp k' props.
Proof.
  intros ne. induction props as [|[k0 v0] props IH]; simpl.
  - destruct (String.eqb_spec k k'); [contradiction | reflexivity].
  - destruct (String.eqb_spec k0 k) as [->|ne0]; simpl.
    + destruct (String.eqb_spec k k'); [contradiction | reflexivity].
    + now rewrite IH.
Qed.

Lemma setProp_present (k : string) (v : Json)
      (props : list (string * Json)) :
  getProp k props = Some v -> setProp k v props = props.
Proof.
  induction props as [|[k' v'] props IH]; simpl; [discriminate|].
  destruct (String.eqb_spec k' k) as [->|_].
  - now intros [= ->].
  - intros H. now rewrite (IH H).
Qed.

(** X6: on a manifest that is an object whose [scripts] property is
    absent, falsy or an object, the update of lines 85-87 succeeds;
    the new [scripts] holds the two contract commands, every other
    script is the one it was, and every other property of the manifest
    is the one it was. *)
Theorem withContractScripts_object
        (props : list (string * Json)) (scripts : list (string * Json)) :
  match getProp "scripts" props with
  | Some v => if JSON.truthy v then v = JObj scripts else scripts = []
  | None => scripts = []
  end ->
  exists props' scripts',
    withContractScripts (JObj props) = inr (JObj props')
    /\ getProp "scripts" props' = Some (JObj scripts')
    /\ getProp "contracts:build" scripts'
       = Some (JStr "cd contracts && stellar contract build")
    /\ getProp "contracts:test" scripts'
       = Some (JStr "cd contracts && cargo test")
    /\ (forall k, k <> "contracts:build" -> k <> "contracts:test" ->
                  getProp k scripts' = getProp k scripts)
    /\ (forall k, k <> "scripts" -> getProp k props' = getProp k props).
Proof.
  intros before.
  assert (chosen :
            match getProp "scripts" props with
            | Some v => if JSON.truthy v then v else JObj []
            | None => JObj []
            end = JObj scripts).
  { destruct (getProp "scripts" props) as [v|]; [|now subst].
    destruct (JSON.truthy v); now subst. }
  eexists _, _. unfold withContractScripts. rewrite chosen. simpl.
  split; [reflexivity|]. split; [apply getProp_setProp_same|].
  split; [|split; [|split]].
  - rewrite getProp_setProp_other by discriminate.
    apply getProp_setProp_same.
  - apply getProp_setProp_same.
  - intros k notBuild notTest.
    rewrite !getProp_setProp_other by congruence. reflexivity.
  - intros k other. apply getProp_setProp_other. congruence.
Qed.

Lemma withContractScripts_object_witness :
  exists props',
    withContractScripts
      (JObj [ ("name", JStr "demo");
              ("scripts", JObj [("dev", JStr "next dev")]) ])
    = inr (JObj props')
    /\ getProp "name" props' = Some (JStr "demo").
Proof.
  destruct (withContractScripts_object
              [ ("name", JStr "demo");
                ("scripts", JObj [("dev", JStr "next dev")]) ]
              [("dev", JStr "next dev")] eq_refl)
    as (props' & scripts' & run & _ & _ & _ & _ & others).
  exists props'. split; [exact run|].
  now rewrite others by discriminate.
Defined.

(** X7: the update of lines 85-87 changes nothing on a manifest that
    has been through it: a second run gives the same document. *)
Theorem withContractScripts_again (pkgJson updated : Json) :
  withContractScripts pkgJson = inr updated ->
  withContractScripts updated = inr updated.
Proof.
  destruct pkgJson as [| | | |items|props]; try discriminate.
  - now intros [= <-].
  - unfold withContractScripts at 1.
    set (chosen := match getProp "scripts" props with
                   | Some v => if JSON.truthy v then v else JObj []
                   | None => JObj []
                   end).
    destruct chosen as [| | | |items|scripts]; try discriminate.
    + intros [= <-]. unfold withContractScripts.
      rewrite getProp_setProp_same. simpl.
      now rewrite setProp_present by apply getProp_setProp_same.
    + intros [= <-]. unfold withContractScripts.
      rewrite getProp_setProp_same. cbn [JSON.truthy addScripts].
      set (done := setProp "contracts:test" (JStr "cd contracts && cargo test")
                     (setProp "contracts:build"
                        (JStr "cd contracts && stellar contract build")
                        scripts)).
      assert (build : setProp "contracts:build"
                        (JStr "cd contracts && stellar contract build") done
                      = done).
      { apply setProp_present. unfold done.
        rewrite getProp_setProp_other by discriminate.
        apply getProp_setProp_same. }
      rewrite build.
      assert (test : setProp "contracts:test"
                       (JStr "cd contracts && cargo test") done = done).
      { apply setProp_present. apply getProp_setProp_same. }
      rewrite test.
      now rewrite setProp_present by apply getProp_setProp_same.
Qed.

Lemma withContractScripts_again_witness :
  let once :=
    JObj [ ("name", JStr "demo");
           ("scripts",
            JObj [ ("contracts:build",
                    JStr "cd contracts && stellar contract build");
                   ("contracts:test", JStr "cd contracts && cargo test") ]) ] in
  withContractScripts (JObj [("name", JStr "demo")]) = inr once
  /\ withContractScripts once = inr once.
Proof.
  intros once. split; [reflexivity|].
  now apply (withContractScripts_again (JObj [("name", JStr "demo")])).
Defined.

(* ------------------------------------------------------------------ *)
(** ** Falsy properties, empty names, missing templates *)

(** X8: an optional property with a falsy value counts as left out.
    A request with an empty or ["default"] template name, a false
    contracts flag, an empty horizon or soroban URL or an empty wallet
    list runs exactly as the request without that property. *)
Theorem scaffold_withoutFalsy
        (E : Env) (options : ScaffoldOptions) (w : World) :
  scaffold E (withoutFalsy options) w = scaffold E options w.
Proof.
  destruct options as [name ts tpl contracts horizon soroban ws dflt skip
                       manager timeout].
  unfold withoutFalsy; cbn [appName useTs template withContracts horizonUrl
                            sorobanUrl wallets defaults skipInstall
                            packageManager installTimeout].
  assert (tplSame :
            JSString.orDefault
              match tpl with
              | Some t => if (t =? EmptyString) || (t =? "default")
                          then None else Some t
              | None => None
              end "default"
            = JSString.orDefault tpl "default").
  { destruct tpl as [t|]; [|reflexivity].
    destruct (String.eqb_spec t EmptyString) as [->|_]; [reflexivity|].
    destruct (String.eqb_spec t "default") as [->|_]; reflexivity. }
  unfold scaffold, prepare, resolvedTemplateName, templateName, targetDir,
    installArgs, config, network, walletList;
    cbn [appName useTs template withContracts horizonUrl sorobanUrl wallets
         defaults skipInstall packageManager installTimeout].
  rewrite tplSame.
  destruct contracts as [[|]|], horizon as [[|c1 u1]|],
           soroban as [[|c2 u2]|], ws as [[|w0 ws]|]; reflexivity.
Qed.

Lemma walk_nothing (base : path) (to : string) :
  to = EmptyString \/ to = "." -> resolve base to = base.
Proof. intros [-> | ->]; reflexivity. Qed.

(** X9: an application name that is empty or [.] names the working
    directory itself; when that directory exists, a request that
    passes the template check fails with the directory-exists error
    and nothing is written. *)
Theorem scaffold_empty_name
        (E : Env) (options : ScaffoldOptions) (w : World) :
  appName options = EmptyString \/ appName options = "." ->
  fs.exists_ (process_cwd E) (files w) = true ->
  negb (useTs options) && negb (templateName options =? "default") = false ->
  targetDir E options = process_cwd E
  /\ scaffold E options w
     = (inl (DirectoryExistsError (appName options)), w).
Proof.
  intros empty there valid.
  assert (same : targetDir E options = process_cwd E)
    by (unfold targetDir; now apply walk_nothing).
  split; [exact same|].
  apply scaffold_prepare_failed; [exact valid|].
  apply prepare_target_taken. now rewrite same.
Qed.

Lemma scaffold_empty_name_witness :
  scaffold (Sample.env true "npm") (Sample.request EmptyString true)
           Sample.world
  = (inl (DirectoryExistsError EmptyString), Sample.world).
Proof.
  apply (scaffold_empty_name (Sample.env true "npm")
                             (Sample.request EmptyString true) Sample.world);
    [now left | reflexivity | reflexivity].
Defined.

(** X10: when the directory of the resolved template does not exist,
    a request that passes the template check and whose target is free
    fails with the error of the copy's first system call on that
    directory; nothing is written, nothing is printed and the install
    delegate is not called. *)
Theorem scaffold_missing_template
        (E : Env) (options : ScaffoldOptions) (w : World) :
  let name := resolvedTemplateName options in
  let templateDir := join (templateRoot E name (files w)) [name] in
  negb (useTs options) && negb (templateName options =? "default") = false ->
  fs.exists_ (targetDir E options) (files w) = false ->
  lookup templateDir (files w) = None ->
  scaffold E options w
  = (inl (SystemError (missing templateDir (files w)) templateDir), w).
Proof.
  intros name templateDir valid free gone.
  apply scaffold_prepare_failed; [exact valid|].
  unfold prepare, bind, fs.pathExists. cbn [fst snd]. rewrite free.
  unfold copyTemplate, fs.copy. fold name. fold templateDir.
  now rewrite gone.
Qed.

Lemma scaffold_missing_template_witness :
  scaffold (Sample.env true "npm")
           (mkOptions "demo" true (Some "minimal") None None None None None
                      None None None)
           Sample.world
  = (inl (SystemError ENOENT ["nextellar"; "src"; "templates"; "minimal"]),
     Sample.world).
Proof.
  apply (scaffold_missing_template
           (Sample.env true "npm")
           (mkOptions "demo" true (Some "minimal") None None None None None
                      None None None)
           Sample.world); reflexivity.
Defined.

(* ------------------------------------------------------------------ *)
(** ** The text of the wallet list *)

Lemma aboveC0_append (a b : string) :
  aboveC0 (a ++ b) = aboveC0 a && aboveC0 b.
Proof.
  induction a as [|c a IH]; [reflexivity|].
  simpl. now rewrite IH, andb_assoc.
Qed.

Lemma aboveC0_hexDigit (n : nat) :
  (32 <=? nat_of_ascii (hexDigit n))%nat = true.
Proof.
  unfold hexDigit. do 16 (destruct n as [|n]; [reflexivity|]).
  now destruct n.
Qed.

Lemma aboveC0_escapeChar (c : ascii) : aboveC0 (escapeChar c) = true.
Proof.
  unfold escapeChar.
  repeat match goal with
         | |- context [if (?a =? ?b)%nat then _ else _] =>
             destruct (a =? b)%nat; [reflexivity|]
         end.
  destruct (nat_of_ascii c <? 32)%nat eqn:low.
  - cbn [aboveC0]. now rewrite !aboveC0_hexDigit.
  - cbn [aboveC0]. apply Nat.ltb_ge in low.
    apply Nat.leb_le in low. now rewrite low.
Qed.

Lemma aboveC0_escape (s : string) : aboveC0 (escape s) = true.
Proof.
  induction s as [|c rest IH]; [reflexivity|].
  cbn [escape]. now rewrite aboveC0_append, aboveC0_escapeChar, IH.
Qed.

Lemma aboveC0_QuoteJSONString (s : string) :
  aboveC0 (QuoteJSONString s) = true.
Proof.
  unfold QuoteJSONString, JSString.quoted. cbn [aboveC0].
  now rewrite aboveC0_append, aboveC0_escape.
Qed.

Lemma aboveC0_joinWith (sep : string) (l : list string) :
  aboveC0 sep = true ->
  Forall (fun s => aboveC0 s = true) l ->
  aboveC0 (joinWith sep l) = true.
Proof.
  intros ps. induction 1 as [|x l px _ IH]; [reflexivity|].
  destruct l as [|y l]; [exact px|].
  change (joinWith sep (x :: y :: l))
    with (x ++ sep ++ joinWith sep (y :: l)).
  now rewrite !aboveC0_append, px, ps, IH.
Qed.

Lemma aboveC0_array (ws : list string) :
  aboveC0 (JSON.stringify (JArr (map JStr ws))) = true.
Proof.
  unfold JSON.stringify. cbn [Serialize]. rewrite map_map.
  cbn [Serialize]. unfold enclose.
  destruct (map (fun x => QuoteJSONString x) ws) eqn:quoted; [reflexivity|].
  rewrite <- quoted. rewrite !aboveC0_append.
  rewrite aboveC0_joinWith; [reflexivity | reflexivity |].
  apply Forall_map, Forall_forall. intros wallet _.
  apply aboveC0_QuoteJSONString.
Qed.

Lemma aboveC0_codes (s : string) :
  aboveC0 s = true ->
  Forall (fun c => 32 <= nat_of_ascii c) (list_ascii_of_string s).
Proof.
  induction s as [|c rest IH]; [constructor|].
  cbn [aboveC0 list_ascii_of_string]. intros above.
  apply andb_true_iff in above as [here later].
  constructor; [now apply Nat.leb_le | now apply IH].
Qed.

Lemma aboveC0_excludes (s : string) (c : ascii) :
  aboveC0 s = true -> nat_of_ascii c < 32 ->
  JSString.includes s (String c EmptyString) = false.
Proof.
  intros above low. induction s as [|x rest IH]; [reflexivity|].
  cbn [aboveC0] in above. apply andb_true_iff in above as [here later].
  cbn [JSString.includes]. rewrite (IH later), orb_false_r.
  unfold JSString.startsWith. simpl.
  destruct (ascii_dec c x) as [->|_]; [|reflexivity].
  apply Nat.leb_le in here. lia.
Qed.

(** X11: whatever the wallet identifiers hold, every character of the
    wallet token has a code of 32 or more: the token holds no raw
    line feed, carriage return or tab, nor any other character below
    the space.  (The character 127 and the characters outside ASCII
    are left as they are.) *)
Theorem walletList_aboveC0 (options : ScaffoldOptions) :
  Forall (fun c => 32 <= nat_of_ascii c)
         (list_ascii_of_string (walletList options))
  /\ JSString.includes (walletList options) JSString.nl = false
  /\ JSString.includes (walletList options)
                       (String (ascii_of_nat 13) EmptyString) = false
  /\ JSString.includes (walletList options)
                       (String (ascii_of_nat 9) EmptyString) = false.
Proof.
  assert (above : aboveC0 (walletList options) = true).
  { unfold walletList.
    destruct (wallets options) as [[|w ws]|]; try reflexivity.
    apply aboveC0_array. }
  split; [now apply aboveC0_codes|].
  repeat split; apply aboveC0_excludes; trivial; apply Nat.ltb_lt;
    reflexivity.
Qed.

(* ------------------------------------------------------------------ *)
(** ** Paths *)

Lemma normalised_removelast (p : path) :
  normalised p -> normalised (removelast p).
Proof.
  unfold normalised. induction 1 as [|seg p here _ IH]; [constructor|].
  destruct p as [|seg' p]; [constructor|].
  cbn [removelast] in *. now constructor.
Qed.

Lemma normalised_enter (p : path) (seg : string) :
  normalised p -> normalised (enter p seg).
Proof.
  intros np. unfold enter.
  destruct (String.eqb_spec seg EmptyString) as [->|notEmpty];
    [exact np|].
  destruct (String.eqb_spec seg ".") as [->|notDot]; [exact np|].
  cbn [orb].
  destruct (String.eqb_spec seg "..") as [->|notUp].
  - now apply normalised_removelast.
  - apply Forall_app. split; [exact np|]. now repeat constructor.
Qed.

Lemma normalised_walk (s : string) :
  forall p, normalised p -> normalised (walk p s).
Proof.
  unfold walk. induction (segments s) as [|seg segs IH]; intros p np;
    [exact np|].
  cbn [fold_left]. now apply IH, normalised_enter.
Qed.

(** X12: the paths the run works on are normalised.  When the
    directory of the module and the working directory are, so are the
    five template roots, the directory of the template and the target
    directory, whatever the template name and the application name
    hold: no [.], [..] or empty segment is left in them. *)
Theorem scaffold_paths_normalised
        (E : Env) (options : ScaffoldOptions) (t : node) :
  normalised (__dirname E) ->
  normalised (process_cwd E) ->
  Forall normalised (templateRoots E)
  /\ normalised (join (templateRoot E (resolvedTemplateName options) t)
                      [resolvedTemplateName options])
  /\ normalised (targetDir E options).
Proof.
  intros nd nc.
  assert (roots : Forall normalised (templateRoots E)).
  { unfold templateRoots, resolve. cbn [JSString.startsWith String.prefix].
    repeat constructor; now apply normalised_walk. }
  split; [exact roots|]. split.
  - unfold join. cbn [fold_left]. apply normalised_walk.
    unfold templateRoot.
    destruct (find _ (templateRoots E)) as [c|] eqn:found.
    + apply find_some in found as [member _].
      exact (proj1 (Forall_forall _ _) roots c member).
    + unfold templateRoots. cbn [List.length Nat.sub nth].
      exact (proj1 (Forall_forall _ _) roots _
                   (or_intror (or_intror (or_intror (or_intror
                      (or_introl eq_refl)))))).
  - unfold targetDir, resolve.
    destruct (JSString.startsWith (appName options) "/");
      apply normalised_walk; [constructor | exact nc].
Qed.

Lemma scaffold_paths_normalised_witness :
  normalised (targetDir (Sample.env true "npm")
                        (Sample.request "../dev/./apps//demo/" true)).
Proof.
  apply (scaffold_paths_normalised (Sample.env true "npm")
                                   (Sample.request "../dev/./apps//demo/" true)
                                   Sample.tree);
    repeat constructor; discriminate.
Defined.

(* ------------------------------------------------------------------ *)
(** ** The environment sample after the contracts block *)

(** A rewrite of one entry of a directory leaves the entries of the
    other names, present or not, as they are. *)
Lemma update_sibling (f : option node -> errno + node) (dir : path)
      (a b : string) :
  a <> b ->
  forall t t' : node,
    update f (dir ++ [a])%list t = inr t' ->
    lookup (dir ++ [b])%list t' = lookup (dir ++ [b])%list t.
Proof.
  intros ne. induction dir as [|s dir IH]; intros t t' run.
  - destruct t as [|es]; [discriminate run|]. cbn [app update] in run.
    destruct (f (assoc a es)) as [e|c']; [discriminate run|].
    injection run as <-. cbn [app lookup].
    now rewrite (assoc_set_other a b c' es ne).
  - destruct t as [|es]; [discriminate run|].
    change ((s :: dir) ++ [a])%list with (s :: (dir ++ [a]))%list in run.
    change ((s :: dir) ++ [b])%list with (s :: (dir ++ [b]))%list.
    cbn [update] in run.
    destruct (dir ++ [a])%list as [|s' rest] eqn:shape.
    { now destruct dir. }
    destruct (assoc s es) as [c|] eqn:child; [|discriminate run].
    destruct (update f (s' :: rest) c) as [e|c'] eqn:below;
      [discriminate run|].
    injection run as <-. cbn [lookup]. rewrite assoc_set_same, child.
    exact (IH c c' below).
Qed.

Lemma readJson_world (E : Env) (p : path) (w w' : World) (v : Json) :
  readJson E p w = (inr v, w') -> w' = w.
Proof.
  unfold readJson, bind, fs.readFile.
  destruct (lookup p (files w)) as [[data|es]|]; try discriminate.
  destruct (JSON_parse E (stripBom (UTF8.decode data))); [|discriminate].
  unfold ret. now intros [= _ <-].
Qed.

(** X17: the contracts block appends to the environment sample that
    the steps before it have left.  When the block succeeds, with
    [w1] the world after the overlay of the contracts template (the
    world before the block when there is no such template), the
    sample holds the content it had in [w1] followed by the block of
    line 94, and the block alone when [w1] had no sample. *)
Theorem mergeContracts_appends_block
        (E : Env) (templateRoot targetDir : path) (w w' : World) :
  let contractsTemplateDir := join templateRoot ["contracts-template"] in
  let envExamplePath := join targetDir [".env.example"] in
  mergeContracts E templateRoot targetDir w = (inr tt, w') ->
  exists w1,
    (if fs.exists_ contractsTemplateDir (files w)
     then fs.copy contractsTemplateDir targetDir (fun _ => true)
     else ret tt) w = (inr tt, w1)
    /\ lookup envExamplePath (files w')
       = Some (File match lookup envExamplePath (files w1) with
                    | Some (File present) => present ++ envExampleBlock
                    | _ => envExampleBlock
                    end).
Proof.
  intros contractsTemplateDir envExamplePath run. unfold mergeContracts in run.
  apply bind_inr in run as (present & w0 & probe & run).
  unfold fs.pathExists in probe. injection probe as <- <-.
  apply bind_inr in run as ([] & w1 & overlay & run).
  apply bind_inr in run as (hasPkg & w2 & probe & run).
  unfold fs.pathExists in probe. injection probe as <- <-.
  apply bind_inr in run as ([] & w3 & manifest & run).
  exists w1. split; [exact overlay|].
  assert (same : lookup envExamplePath (files w3)
                 = lookup envExamplePath (files w1)).
  { match type of manifest with
    | (if ?probe then _ else _) w1 = _ => destruct probe
    end.
    - apply bind_inr in manifest as (pkgJson & w1' & parsed & written).
      apply readJson_world in parsed. subst w1'.
      destruct (withContractScripts pkgJson) as [e|pkgJson'];
        [discriminate written|].
      unfold writeJson, fs.writeFile, syscall in written.
      match type of written with
      | context [update ?f ?q (files w1)] =>
          destruct (update f q (files w1)) as [e|t'] eqn:put
      end; [discriminate written|].
      injection written as <-. cbn [files].
      exact (update_sibling _ targetDir "package.json" ".env.example"
                            ltac:(discriminate) (files w1) t' put).
    - unfold ret in manifest. now injection manifest as <-. }
  apply appendFile_result in run. fold envExamplePath in run.
  rewrite same in run.
  destruct (lookup envExamplePath (files w1)) as [[old|es]|];
    [exact run | contradiction | exact run].
Qed.

Lemma mergeContracts_appends_block_witness :
  let E := Sample.env true "npm" in
  let target := ["home"; "dev"; "demo"] in
  let w :=
    snd (copyTemplate ["pkg"; "dist"; "templates"; "js-template"] target
                      Sample.world) in
  lookup (join target [".env.example"])
         (files (snd (mergeContracts E ["pkg"; "dist"; "templates"] target w)))
  = Some (File ("NEXT_PUBLIC_HORIZON={{HORIZON_URL}}" ++ envExampleBlock)).
Proof.
  intros E target w.
  destruct (mergeContracts_appends_block
              E ["pkg"; "dist"; "templates"] target w
              (snd (mergeContracts E ["pkg"; "dist"; "templates"] target w))
              eq_refl)
    as (w1 & overlay & found).
  injection overlay as <-. exact found.
Defined.

(* ------------------------------------------------------------------ *)
(** ** The overlay of the contracts template *)

Lemma assoc_member (name : string) (es : list (string * node)) (c : node) :
  assoc name es = Some c -> In (name, c) es.
Proof.
  induction es as [|[k v] es IH]; simpl; [discriminate|].
  destruct (String.eqb_spec k name) as [->|_].
  - intros [= ->]. now left.
  - intros found. right. now apply IH.
Qed.

Lemma assoc_none (name : string) (es : list (string * node)) :
  assoc name es = None -> ~ In name (names es).
Proof.
  induction es as [|[k v] es IH]; simpl; [tauto|].
  destruct (String.eqb_spec k name) as [->|ne]; [discriminate|].
  intros absent [same | member]; [contradiction | now apply IH].
Qed.

Lemma names_member (name : string) (c : node) (es : list (string * node)) :
  In (name, c) es -> In name (names es).
Proof.
  induction es as [|[k v] es IH]; simpl; [tauto|].
  intros [[= -> ->] | member]; [now left | right; now apply IH].
Qed.

(** The loop of [onDir] without a filter, when it ends without error:
    the names that are not in the source keep their entry, and every
    entry of the source has been copied over the entry of its name. *)
Lemma onDir_overlay (src dest : path) (es : list (string * node)) :
  nodup_names (names es) = true ->
  forall ds ds',
    fs.onDir (fs.copyNode everything) everything src dest es ds
    = (ds', None) ->
    (forall name, ~ In name (names es) -> assoc name ds' = assoc name ds)
    /\ (forall name child,
           In (name, child) es ->
           exists c',
             assoc name ds' = Some c'
             /\ fs.conflict (src ++ [name])%list child (dest ++ [name])%list
                            (assoc name ds) = None
             /\ fs.copyNode everything (src ++ [name])%list
                            (dest ++ [name])%list child (assoc name ds)
                = (c', None)).
Proof.
  induction es as [|[name0 child0] rest IH]; intros distinct ds ds' run.
  - injection run as <-. split; [reflexivity | intros ? ? []].
  - cbn [names nodup_names] in distinct.
    apply andb_true_iff in distinct as [fresh distinct].
    apply negb_true_iff in fresh.
    cbn [fs.onDir] in run. unfold everything at 1 in run.
    destruct (fs.conflict (src ++ [name0])%list child0 (dest ++ [name0])%list
                          (assoc name0 ds)) eqn:clash; [discriminate run|].
    destruct (fs.copyNode everything (src ++ [name0])%list
                          (dest ++ [name0])%list child0 (assoc name0 ds))
      as [c0 [e|]] eqn:copied; [discriminate run|].
    destruct (IH distinct _ _ run) as [others members].
    assert (notLater : ~ In name0 (names rest)).
    { intros member.
      now elim (existsb_eqb_false name0 (names rest) fresh name0 member). }
    split.
    + intros name out. rewrite others by (intros member; apply out; now right).
      apply assoc_set_other. intros ->. apply out. now left.
    + intros name child [[= -> ->] | member].
      * exists c0. rewrite (others name notLater), assoc_set_same. auto.
      * assert (ne : name0 <> name).
        { intros ->. apply notLater. exact (names_member _ _ _ member). }
        destruct (members name child member) as (c' & there & clash' & run').
        rewrite (assoc_set_other name0 name c0 ds ne) in clash', run'.
        now exists c'.
Qed.

Lemma copyNode_overlay (s : node) :
  wf s = true ->
  forall (src dest : path) (d : option node) (result : node),
    fs.conflict src s dest d = None ->
    fs.copyNode everything src dest s d = (result, None) ->
    overlaid s d result.
Proof.
  induction s as [data|es IH] using node_induction;
    intros sound src dest d result clash run.
  - injection run as <-. split.
    + intros [|name rel] data' found; [exact found | discriminate found].
    + intros [|name rel] kept absent present; [discriminate absent|].
      destruct d as [[?|ds]|]; try discriminate present; discriminate clash.
  - cbn [wf] in sound. apply andb_true_iff in sound as [distinct sound].
    cbn [fs.copyNode] in run.
    set (present := match d with Some (Dir ds) => ds | _ => [] end) in run.
    destruct (fs.onDir (fs.copyNode everything) everything src dest es present)
      as [ds' err] eqn:loop.
    injection run as <- ->.
    destruct (onDir_overlay src dest es distinct present ds' loop)
      as [others members].
    assert (below : forall name child,
               assoc name es = Some child ->
               exists c', assoc name ds' = Some c'
                          /\ overlaid child (assoc name present) c').
    { intros name child found. apply assoc_member in found.
      destruct (members name child found) as (c' & there & clash' & run').
      exists c'. split; [exact there|].
      rewrite Forall_forall in IH.
      refine (IH (name, child) found _ _ _ _ _ clash' run').
      rewrite forallb_forall in sound. exact (sound (name, child) found). }
    split.
    + intros [|name rel] data found; [discriminate found|].
      cbn [lookup] in found |- *.
      destruct (assoc name es) as [child|] eqn:entry; [|discriminate found].
      destruct (below name child entry) as (c' & there & over & _).
      rewrite there. exact (over rel data found).
    + intros [|name rel] kept absent held; [discriminate absent|].
      assert (dir : d = Some (Dir present)).
      { destruct d as [[?|ds]|]; try discriminate held; try discriminate clash.
        reflexivity. }
      rewrite dir in held. cbn [lookup] in absent, held |- *.
      destruct (assoc name es) as [child|] eqn:entry.
      * destruct (below name child entry) as (c' & there & _ & under).
        rewrite there. apply (under rel kept absent).
        destruct (assoc name present); [exact held | discriminate held].
      * rewrite (others name (assoc_none name es entry)). exact held.
Qed.

(** X13: a copy without filter over a directory that exists is an
    overlay (lines 77-79).  When it succeeds, every file of the source
    is in the destination, at the same relative path, with the content
    of the source, also where the destination had a file of its own;
    and whatever the destination held at a path where the source has
    nothing is still there. *)
Theorem copy_overlay
        (src dest : path) (w w' : World) (s d : node) :
  lookup src (files w) = Some s ->
  wf s = true ->
  lookup dest (files w) = Some d ->
  fs.copy src dest everything w = (inr tt, w') ->
  (forall rel data,
      lookup rel s = Some (File data) ->
      lookup (dest ++ rel)%list (files w') = Some (File data))
  /\ (forall rel kept,
         lookup rel s = None ->
         lookup rel d = Some kept ->
         lookup (dest ++ rel)%list (files w') = Some kept).
Proof.
  intros source sound target run.
  unfold fs.copy in run. rewrite source, target in run.
  assert (placed : exists result,
             lookup dest (files w') = Some result
             /\ overlaid s (Some d) result).
  { destruct (path_eqb src dest); [destruct (missing dest (files w));
                                   discriminate run|].
    destruct (fs.conflict src s dest (Some d)) eqn:clash;
      [destruct (missing dest (files w)); discriminate run|].
    destruct (isDirectory s && isPrefix src dest);
      [destruct (missing dest (files w)); discriminate run|].
    unfold everything at 1 in run. cbn [negb] in run.
    assert (run' :
              (syscall (dirname dest) (mkdirs (dirname dest)) ;;
               let (n', err) := fs.copyNode everything src dest s (Some d) in
               syscall dest (update (fun _ => inr n') dest) ;;
               match err with
               | Some e => throw e
               | None => ret tt
               end) w = (inr tt, w'))
      by (destruct (missing dest (files w)); exact run).
    clear run. apply bind_inr in run' as (? & w1 & _ & run).
    destruct (fs.copyNode everything src dest s (Some d)) as [n' err]
      eqn:copied.
    apply bind_inr in run as (? & w2 & put & run).
    destruct err as [e|]; [discriminate run|].
    unfold ret in run. injection run as <-.
    unfold syscall in put.
    destruct (update (fun _ => inr n') dest (files w1)) as [e|t2] eqn:done;
      [discriminate put|].
    injection put as _ <-. cbn [files].
    destruct (update_result _ dest _ _ done) as (n & [= <-] & there).
    exists n'. split; [exact there|].
    exact (copyNode_overlay s sound src dest (Some d) n' clash copied). }
  destruct placed as (result & there & files & others).
  split; intros rel x; rewrite lookup_app, there.
  - apply files.
  - apply others.
Qed.

Lemma copy_overlay_witness :
  let src := ["pkg"; "dist"; "templates"; "js-template"] in
  let dest := ["home"; "dev"; "taken"] in
  let w' := snd (fs.copy src dest everything Sample.world) in
  lookup (dest ++ [".env.example"])%list (files w')
  = Some (File "NEXT_PUBLIC_HORIZON={{HORIZON_URL}}")
  /\ lookup (dest ++ ["notes.txt"])%list (files w') = Some (File "keep").
Proof.
  intros src dest w'.
  destruct (copy_overlay src dest Sample.world w' Sample.jsTemplate
                         (Dir [("notes.txt", File "keep")])
                         eq_refl eq_refl eq_refl eq_refl)
    as [files others].
  split.
  - exact (files [".env.example"] _ eq_refl).
  - exact (others ["notes.txt"] _ eq_refl eq_refl).
Defined.

(* ------------------------------------------------------------------ *)
(** ** From the template to the project *)

Lemma listedFiles_kept (rel : path) :
  In rel listedFiles -> existsb excludedName rel = false.
Proof.
  unfold listedFiles. simpl.
  intros member.
  repeat (destruct member as [<- | member]; [reflexivity|]).
  destruct member.
Qed.

(** X14: the project of a request without the contracts flag, when
    the steps up to the confirmation line succeed from a well-formed
    template whose directory is not itself refused by the filter.  A
    listed file of the template is in the target with every token of
    the map replaced in its text (its bytes read as UTF-8); any other
    file of the template that the filter lets through is in the target
    as it is in the template. *)
Theorem prepare_project
        (E : Env) (options : ScaffoldOptions) (w w' : World) (tpl : node) :
  let name := resolvedTemplateName options in
  let templateDir := join (templateRoot E name (files w)) [name] in
  flag (withContracts options) = false ->
  prepare E options w = (inr tt, w') ->
  lookup templateDir (files w) = Some tpl ->
  wf tpl = true ->
  excludedName (basename templateDir) = false ->
  forall (rel : path) (content : string),
    lookup rel tpl = Some (File content) ->
    (In rel listedFiles ->
     lookup (targetDir E options ++ rel)%list (files w')
     = Some (File (fold_left
                     (fun newContent entry =>
                        JSString.replaceAll newContent (fst entry)
                                            (snd entry))
                     (config options) (UTF8.decode content))))
    /\ (~ In rel listedFiles ->
        existsb excludedName rel = false ->
        lookup (targetDir E options ++ rel)%list (files w')
        = Some (File content)).
Proof.
  intros name templateDir plain run source sound allowed rel content found.
  unfold prepare in run. rewrite plain in run.
  apply bind_inr in run as (tree & w0 & start & run).
  injection start as <- <-.
  apply bind_inr in run as (taken & w0 & probe & run).
  unfold fs.pathExists in probe. injection probe as <- <-.
  destruct (fs.exists_ (targetDir E options) (files w)) eqn:free;
    [discriminate run|].
  apply bind_inr in run as ([] & w1 & copied & run).
  apply bind_inr in run as ([] & w2 & skipped & run).
  unfold ret in skipped. injection skipped as <-.
  apply bind_inr in run as ([] & w3 & processed & run).
  unfold emit in run. injection run as <-. cbn [files].
  fold name in copied. fold templateDir in copied.
  unfold fs.exists_ in free.
  destruct (lookup (targetDir E options) (files w)) eqn:nothing;
    [discriminate free|].
  pose proof (copy_fresh_result templateDir (targetDir E options) w w1 tpl
                                source sound nothing copied) as placed.
  rewrite allowed in placed.
  assert (arrived : existsb excludedName rel = false ->
                    lookup (targetDir E options ++ rel)%list (files w1)
                    = Some (File content)).
  { intros kept. now rewrite lookup_app, placed, lookup_pruned, kept, found. }
  split.
  - intros member.
    refine (substitution_loop_result
              (config options) (filesToProcess (targetDir E options))
              (targetDir E options ++ rel)%list content
              (listedFiles_distinct (targetDir E options)) _
              w1 w3 (arrived (listedFiles_kept rel member)) processed).
    rewrite filesToProcess_listed.
    exact (in_map (fun r => (targetDir E options ++ r)%list)
                  listedFiles rel member).
  - intros other kept.
    assert (out : ~ In (targetDir E options ++ rel)%list
                       (filesToProcess (targetDir E options))).
    { rewrite filesToProcess_listed. intros member.
      apply in_map_iff in member as (rel' & same & member).
      apply app_inv_head in same. now subst rel'. }
    pose proof (substitution_loop_other
                  (config options) (filesToProcess (targetDir E options))
                  (targetDir E options ++ rel)%list content out
                  w1 (arrived kept)) as untouched.
    unfold processFiles in processed. now rewrite processed in untouched.
Qed.

Lemma prepare_project_witness :
  let E := Sample.env true "npm" in
  let options := Sample.request "demo" true in
  let w' := snd (prepare E options Sample.world) in
  lookup ["home"; "dev"; "demo"; "README.md"] (files w')
  = Some (File (fold_left
                  (fun newContent entry =>
                     JSString.replaceAll newContent (fst entry) (snd entry))
                  (config options) "# {{APP_NAME}} on {{NETWORK}}"))
  /\ lookup ["home"; "dev"; "demo"; "src"; "app.ts"] (files w')
     = Some (File "export {}").
Proof.
  intros E options w'.
  assert (rule := prepare_project E options Sample.world w'
                                  Sample.defaultTemplate
                                  eq_refl eq_refl eq_refl eq_refl eq_refl).
  split.
  - apply (proj1 (rule ["README.md"] _ eq_refl)).
    right; now left.
  - apply (proj2 (rule ["src"; "app.ts"] _ eq_refl)); [|reflexivity].
    unfold listedFiles. simpl. intros member.
    repeat (destruct member as [H | member]; [discriminate H|]).
    exact member.
Defined.

(* ------------------------------------------------------------------ *)
(** ** Runs that leave little or no project *)

Lemma path_eqb_eq (p q : path) : path_eqb p q = true -> p = q.
Proof. unfold path_eqb. now destruct (list_eq_dec string_dec p q). Qed.

Lemma substitution_loop_absent
      (targetDir : path) (replacements : list (string * string))
      (w : World) :
  lookup targetDir (files w) = None ->
  processFiles targetDir replacements w = (inr tt, w).
Proof.
  intros absent. unfold processFiles. rewrite filesToProcess_listed.
  induction listedFiles as [|rel rest IH]; [reflexivity|].
  cbn [map forEach]. unfold bind at 1. unfold bind at 1.
  unfold fs.pathExists at 1, fs.exists_.
  rewrite lookup_app, absent. exact IH.
Qed.

(** X15: a template whose directory is itself named [.git] or
    [node_modules] is refused whole by the filter.  Without the
    contracts flag the steps up to the confirmation line then succeed
    and print the confirmation, yet the tree is the one before the
    call: no target directory has been made. *)
Theorem prepare_template_refused
        (E : Env) (options : ScaffoldOptions) (w : World) (tpl : node) :
  let name := resolvedTemplateName options in
  let templateDir := join (templateRoot E name (files w)) [name] in
  flag (withContracts options) = false ->
  lookup templateDir (files w) = Some tpl ->
  excludedName (basename templateDir) = true ->
  lookup (targetDir E options) (files w) = None ->
  missing (targetDir E options) (files w) = ENOENT ->
  isPrefix templateDir (targetDir E options) = false ->
  prepare E options w
  = (inr tt,
     mkWorld (files w)
             (trace w ++ [ConsoleLog (scaffolded (appName options))])%list)
  /\ fs.exists_ (targetDir E options) (files (snd (prepare E options w)))
     = false.
Proof.
  intros name templateDir plain source refused absent code outside.
  assert (run : prepare E options w
                = (inr tt,
                   mkWorld (files w)
                           (trace w ++ [ConsoleLog
                                          (scaffolded (appName options))])%list)).
  { unfold prepare, bind, fs.pathExists, fs.exists_. cbn [fst snd].
    rewrite absent, plain. unfold copyTemplate, fs.copy.
    fold name. fold templateDir. rewrite source, absent, code.
    destruct (path_eqb templateDir (targetDir E options)) eqn:same.
    { apply path_eqb_eq in same. rewrite same in source. congruence. }
    rewrite conflict_fresh, outside, andb_false_r, copyFilter_basename.
    rewrite refused. cbn [negb ret].
    now rewrite (substitution_loop_absent _ _ w absent). }
  split; [exact run|]. rewrite run. unfold fs.exists_. cbn [snd files].
  now rewrite absent.
Qed.

Lemma prepare_template_refused_witness :
  let options :=
    mkOptions "demo" true (Some "node_modules") None None None None None
              None None None in
  let w := mkWorld cacheNamedTree [] in
  fst (prepare (Sample.env true "npm") options w) = inr tt
  /\ fs.exists_ ["home"; "dev"; "demo"]
                (files (snd (prepare (Sample.env true "npm") options w)))
     = false.
Proof.
  intros options w.
  destruct (prepare_template_refused
              (Sample.env true "npm") options w
              (Dir [ ("package.json", File "{}");
                     ("README.md", File "# {{APP_NAME}}") ])
              eq_refl eq_refl eq_refl eq_refl eq_refl eq_refl)
    as [run gone].
  split; [now rewrite run | exact gone].
Defined.

(** X16: there is no clean-up after the copy.  With the contracts
    flag set and no contracts template beside the template, a manifest
    in the copied project that the parser refuses makes the call fail
    with the parser's error; the world is the one the copy has left,
    with the copied project in it, and nothing has been appended,
    replaced, printed or installed. *)
Theorem scaffold_manifest_refused
        (E : Env) (options : ScaffoldOptions) (w w1 : World)
        (text : string) :
  let name := resolvedTemplateName options in
  let rootDir := templateRoot E name (files w) in
  negb (useTs options) && negb (templateName options =? "default") = false ->
  flag (withContracts options) = true ->
  fs.exists_ (targetDir E options) (files w) = false ->
  copyTemplate (join rootDir [name]) (targetDir E options) w = (inr tt, w1) ->
  fs.exists_ (join rootDir ["contracts-template"]) (files w1) = false ->
  lookup (join (targetDir E options) ["package.json"]) (files w1)
  = Some (File text) ->
  JSON_parse E (stripBom (UTF8.decode text)) = None ->
  scaffold E options w = (inl SyntaxError, w1).
Proof.
  intros name rootDir valid contracts free copied bare manifest refused.
  apply scaffold_prepare_failed; [exact valid|].
  unfold prepare, bind, fs.pathExists. cbn [fst snd]. rewrite free.
  fold name. fold rootDir. rewrite copied, contracts.
  unfold mergeContracts, bind, fs.pathExists. rewrite bare.
  cbn [ret fst snd]. unfold fs.exists_. rewrite manifest.
  unfold readJson, bind, fs.readFile. rewrite manifest, refused.
  reflexivity.
Qed.

Lemma scaffold_manifest_refused_witness :
  let E :=
    mkEnv ["pkg"; "dist"; "lib"] ["home"; "dev"] (fun _ => None)
          (Sample.delegate true "npm") in
  let options :=
    mkOptions "demo" true None (Some true) None None None None None None
              None in
  fst (scaffold E options Sample.world) = inl SyntaxError
  /\ lookup ["home"; "dev"; "demo"; "README.md"]
            (files (snd (scaffold E options Sample.world)))
     = Some (File "# {{APP_NAME}} on {{NETWORK}}").
Proof.
  intros E options.
  assert (run := scaffold_manifest_refused
                   E options Sample.world
                   (snd (copyTemplate ["pkg"; "dist"; "templates"; "default"]
                                      ["home"; "dev"; "demo"] Sample.world))
                   Sample.manifestText
                   eq_refl eq_refl eq_refl eq_refl eq_refl eq_refl eq_refl).
  rewrite run. split; reflexivity.
Defined.

(* ------------------------------------------------------------------ *)
(** ** The UTF-8 decoder *)

(** ASCII text is well-formed. *)
Lemma valid_ascii (s : string) :
  Forall (fun c => nat_of_ascii c <= 127) (list_ascii_of_string s) ->
  UTF8.valid s.
Proof.
  unfold UTF8.valid, UTF8.decode.
  induction s as [|c rest IH]; intros low; [reflexivity|].
  cbn [list_ascii_of_string] in low. inversion low as [|? ? here later]; subst.
  cbn [UTF8.decodeFrom]. unfold UTF8.lead.
  apply Nat.leb_le in here. rewrite here. simpl. now rewrite (IH later).
Qed.

(** Sequences of two, three and four bytes are kept. *)
Example decode_well_formed :
  UTF8.valid (bytes [99; 97; 102; 195; 169; 32; 226; 130; 172; 32;
                     240; 159; 152; 128]).
Proof. reflexivity. Qed.

(** A byte that is no lead byte, a sequence cut short, an encoded
    surrogate and an overlong form are replaced, once for each byte
    that cannot be part of a sequence. *)
Example decode_ill_formed :
  UTF8.decode (bytes [99; 233; 120])
  = "c" ++ UTF8.replacement ++ "x"
  /\ UTF8.decode (bytes [226; 130]) = UTF8.replacement
  /\ UTF8.decode (bytes [226; 195; 169])
     = UTF8.replacement ++ bytes [195; 169]
  /\ UTF8.decode (bytes [237; 160; 128])
     = UTF8.replacement ++ UTF8.replacement ++ UTF8.replacement
  /\ UTF8.decode (bytes [192; 128]) = UTF8.replacement ++ UTF8.replacement.
Proof. repeat split. Qed.
